(** * Mock bank receiver: the transaction log and its analytics queries

    A shallow embedding of [server.py].  The receiver validates a posted
    transaction, appends it to a JSON-lines log and answers read-only
    aggregation queries by re-reading the whole log.  The generator of
    [bank_simulator.py], which posts synthetic transactions to it, is
    embedded beside it.

    Modelling choices, all taken from the source:
    - an amount is a Python [float], that is an IEEE binary64 value: the
      kernel's primitive [float] with its own rounding arithmetic;
    - the accumulators start from the integer literal [0], so a Python number
      is an [Int] or a [Float];
    - the builtin [sum] adds from left to right starting at the integer 0
      (CPython 3.12 and later compensate the rounding error of a float sum;
      that refinement is not modelled);
    - [sorted] is a stable sort driven by [<] alone; it is modelled by stable
      insertion, which returns the same list as the library's sort whenever
      [<] is a strict weak order on the keys: on strings always, on numbers
      when none is NaN.  With a NaN among the keys the library's result
      depends on the runs it finds and on its merges: the order of the rows
      is stated for lists without NaN, and shown on one example with a NaN
      that the library returns as the insertion does;
    - a string is the sequence of its UTF-8 bytes, the form in which the
      library's C code reads it; [isoformat] and [fromisoformat] are those of
      CPython 3.11, and [strftime] is the one of the GNU C library;
    - a line of the log holds the record it serialises: [json.dumps] followed
      by [json.loads] returns the dictionary it was given; the receiver is the
      only writer of the log, so a stored type is one of the two literals the
      endpoint admits;
    - validation is the validating library's: the model fixes what the class
      [Transaction] declares (five required fields, two strings, a float, a
      datetime, a literal) and leaves the library's reading of a timestamp,
      and of an amount that is not a JSON number, as parameters;
    - the zone of the host, which [astimezone] applies to a timestamp that
      names none, is a parameter too;
    - the generator takes its random numbers and the clock as the draws of
      each transaction, and the outcome of a submission and of a sleep from
      functions of its environment. *)

From Stdlib Require Import ZArith List Bool Lia String Ascii.
From Stdlib Require Import Floats Sorted Permutation.
Import ListNotations.

Set Warnings "-inexact-float".

Local Open Scope Z_scope.

(** ** Python numbers *)

Module Num.

(** [round_half_even_div p q]: the integer nearest to [p / q] for [0 <= p]
    and [0 < q], ties going to the even neighbour. *)
Definition round_half_even_div (p q : Z) : Z :=
  let d := p / q in
  match (2 * (p mod q)) ?= q with
  | Lt => d
  | Gt => d + 1
  | Eq => if Z.even d then d else d + 1
  end.

(** [nearest_double p q]: the binary64 value nearest to [p / q] for positive
    [p] and [q] (round to nearest, ties to even), as [strtod] returns it.  The
    quotient is scaled by a power of two [k] into [[2^52, 2^53)], rounded to
    an integer there, and scaled back. *)
Definition nearest_double (p q : Z) : float :=
  let k0 := 52 - (Z.log2 p - Z.log2 q) in
  let scale k := if 0 <=? k then (p * 2 ^ k, q) else (p, q * 2 ^ (- k)) in
  let k := let '(n, d) := scale k0 in if n <? d * 2 ^ 52 then k0 + 1 else k0 in
  let '(n, d) := scale k in
  SF2Prim (binary_normalize prec emax (round_half_even_div n d) (- k) false).

(** The exact value of a finite float as a fraction [n / d] of its
    magnitude, with [d] a power of two. *)
Definition magnitude (m : positive) (e : Z) : Z * Z :=
  if 0 <=? e then (Z.pos m * 2 ^ e, 1) else (Z.pos m, 2 ^ (- e)).

(** [float.__round__(x, 2)]: infinities and NaN round to themselves; a finite
    [x] is printed with two digits after the point, correctly rounded with
    ties to even on its exact value, and the decimal read back as the nearest
    double; the sign of [x] is kept. *)
Definition float_round2 (x : float) : float :=
  match Prim2SF x with
  | S754_finite s m e =>
      let '(n, d) := magnitude m e in
      let c := round_half_even_div (n * 100) d in
      let r := if c =? 0 then PrimFloat.zero else nearest_double c 100 in
      if s then PrimFloat.opp r else r
  | _ => x
  end.

(** [float(z)] for an integer: the nearest double. *)
Definition float_of_Z (z : Z) : float :=
  SF2Prim (binary_normalize prec emax z 0 false).

Inductive number : Type :=
| Int (z : Z)
| Float (f : float).

Definition to_float (a : number) : float :=
  match a with
  | Int z => float_of_Z z
  | Float f => f
  end.

(** [a + b] and [a - b]: exact on two integers, otherwise the integer operand
    is converted and the floats are added. *)
Definition add (a b : number) : number :=
  match a, b with
  | Int x, Int y => Int (x + y)
  | _, _ => Float (PrimFloat.add (to_float a) (to_float b))
  end.

Definition sub (a b : number) : number :=
  match a, b with
  | Int x, Int y => Int (x - y)
  | _, _ => Float (PrimFloat.sub (to_float a) (to_float b))
  end.

(** [a / n], true division: always a float. *)
Definition div (a b : number) : number :=
  Float (PrimFloat.div (to_float a) (to_float b)).

(** [round(a, 2)]: an integer is returned as it is. *)
Definition round2 (a : number) : number :=
  match a with
  | Int z => Int z
  | Float f => Float (float_round2 f)
  end.

(** [a < b] and [a == b].  Python compares an integer with a float exactly;
    the conversion used here agrees with it on every integer a double holds
    exactly, and the only integer the program mixes with floats is 0. *)
Definition ltb (a b : number) : bool :=
  match a, b with
  | Int x, Int y => x <? y
  | _, _ => PrimFloat.ltb (to_float a) (to_float b)
  end.

Definition eqb (a b : number) : bool :=
  match a, b with
  | Int x, Int y => x =? y
  | _, _ => PrimFloat.eqb (to_float a) (to_float b)
  end.

Definition leb (a b : number) : bool :=
  match a, b with
  | Int x, Int y => x <=? y
  | _, _ => PrimFloat.leb (to_float a) (to_float b)
  end.

Definition is_nan (a : number) : bool :=
  match a with
  | Int _ => false
  | Float f => PrimFloat.is_nan f
  end.

(** The builtin [sum]: left to right from the integer 0. *)
Definition sum (l : list number) : number := fold_left add l (Int 0).

End Num.

Import Num.

(** ** The stored data *)

(** [Literal["credit", "debit"]]. *)
Inductive tx_type : Type := credit | debit.

Definition tx_type_eqb (a b : tx_type) : bool :=
  match a, b with
  | credit, credit | debit, debit => true
  | _, _ => false
  end.

(** The dictionary written to the log, and read back from it: the dumped
    model with its timestamp replaced by a string. *)
Record record : Type := mkRecord {
  rec_id : string;
  rec_account : string;
  rec_amount : float;
  rec_timestamp : string;
  rec_type : tx_type
}.

(** One line of [transactions.jsonl]: a serialised record, or a line that is
    empty once stripped.  A line that is neither makes [json.loads] raise;
    the receiver never writes one. *)
Inductive line : Type :=
| Blank
| Entry (r : record).

(** The state of [DATA_FILE]: absent, or its lines in order. *)
Definition file : Type := option (list line).

(** [read_transactions]: no file gives the empty list; blank lines are
    skipped; the other lines are parsed in order. *)
Definition read_transactions (f : file) : list record :=
  match f with
  | None => []
  | Some ls =>
      flat_map (fun l => match l with Blank => [] | Entry r => [r] end) ls
  end.

(** ** A stable sort by key *)

Section Sorted.
Context {A K : Type}.
Variable key : A -> K.
Variable lt : K -> K -> bool.

(** Ascending: [x] is placed before the first element that is not below
    it, so that it stays ahead of the later elements with an equal key. *)
Fixpoint insert_asc (x : A) (l : list A) : list A :=
  match l with
  | [] => [x]
  | y :: l' =>
      if lt (key y) (key x) then y :: insert_asc x l' else x :: l
  end.

(** Descending ([reverse=True]): [x] is placed before the first element
    that [x] is not below. *)
Fixpoint insert_desc (x : A) (l : list A) : list A :=
  match l with
  | [] => [x]
  | y :: l' =>
      if lt (key x) (key y) then y :: insert_desc x l' else x :: l
  end.

Definition sorted (reverse : bool) (l : list A) : list A :=
  fold_right (if reverse then insert_desc else insert_asc) [] l.

(** [a] may stand before [b] in a descending list: [a] is not below
    [b]; and in an ascending one: [b] is not below [a]. *)
Definition desc (a b : A) : Prop := lt (key a) (key b) = false.
Definition asc (a b : A) : Prop := lt (key b) (key a) = false.
End Sorted.

(** ** Summary *)

Record summary : Type := mkSummary {
  total_transactions : Z;
  total_credits : number;
  total_debits : number;
  net_balance : number;
  average_transaction : number;
  unique_accounts : Z
}.

(** [len(transactions)]. *)
Definition len {A : Type} (l : list A) : Z := Z.of_nat (List.length l).

(** [tx["amount"] for tx in transactions if tx["type"] == t]. *)
Definition amounts_of_type (t : tx_type) (txs : list record) : list number :=
  map (fun tx => Float (rec_amount tx))
      (filter (fun tx => tx_type_eqb (rec_type tx) t) txs).

(** [set(tx["account"] for tx in transactions)], as the list of its
    distinct members. *)
Definition account_set (txs : list record) : list string :=
  nodup string_dec (map rec_account txs).

Definition get_summary (f : file) : summary :=
  let transactions := read_transactions f in
  match transactions with
  | [] => mkSummary 0 (Int 0) (Int 0) (Int 0) (Int 0) 0
  | _ =>
      let total_credits := sum (amounts_of_type credit transactions) in
      let total_debits := sum (amounts_of_type debit transactions) in
      let accounts := account_set transactions in
      mkSummary
        (len transactions)
        (round2 total_credits)
        (round2 total_debits)
        (round2 (sub total_credits total_debits))
        (round2 (div (sum (map (fun tx => Float (rec_amount tx)) transactions))
                     (Int (len transactions))))
        (len accounts)
  end.

(** ** Type distribution *)

Record type_distribution : Type := mkDistribution {
  dist_credit : Z;
  dist_debit : Z
}.

Definition get_type_distribution (f : file) : type_distribution :=
  let transactions := read_transactions f in
  let count t := len (filter (fun tx => tx_type_eqb (rec_type tx) t) transactions) in
  mkDistribution (count credit) (count debit).

(** ** By account *)

(** The per-account accumulator, [{"credits": 0, "debits": 0, "count": 0,
    "balance": 0}] when first touched. *)
Record account_data : Type := mkData {
  credits : number;
  debits : number;
  count : Z;
  balance : number
}.

Definition default_data : account_data := mkData (Int 0) (Int 0) 0 (Int 0).

(** A dictionary with string keys, in insertion order. *)
Definition dict (V : Type) : Type := list (string * V).

(** [d[k] = f(d[k])] on a [defaultdict]: a missing key is first inserted, at
    the end, with the default value. *)
Fixpoint update {V : Type} (dflt : V) (k : string) (f : V -> V) (d : dict V)
  : dict V :=
  match d with
  | [] => [(k, f dflt)]
  | (k', v) :: d' =>
      if String.eqb k k' then (k', f v) :: d'
      else (k', v) :: update dflt k f d'
  end.

(** The body of the loop over the transactions: the count, then the
    credits and the balance for a credit, otherwise ([else]) the debits and
    the balance. *)
Definition account_step (data : account_data) (tx : record) : account_data :=
  let amount := Float (rec_amount tx) in
  let data := mkData (credits data) (debits data) (count data + 1) (balance data) in
  match rec_type tx with
  | credit =>
      mkData (add (credits data) amount) (debits data) (count data)
             (add (balance data) amount)
  | debit =>
      mkData (credits data) (add (debits data) amount) (count data)
             (sub (balance data) amount)
  end.

Definition accounts_data (txs : list record) : dict account_data :=
  fold_left
    (fun d tx => update default_data (rec_account tx)
                        (fun data => account_step data tx) d)
    txs [].

(** One element of the by-account response. *)
Record account_row : Type := mkRow {
  row_account : string;
  row_credits : number;
  row_debits : number;
  row_balance : number;
  row_count : Z
}.

Definition get_by_account (f : file) : list account_row :=
  let transactions := read_transactions f in
  let result :=
    map (fun '(account, data) =>
           mkRow account (round2 (credits data)) (round2 (debits data))
                 (round2 (balance data)) (count data))
        (accounts_data transactions) in
  sorted row_balance Num.ltb true result.

(** ** Strings *)

Local Open Scope string_scope.
Local Open Scope Z_scope.

(** [s.replace(old, new)] for a non-empty [old]: every occurrence, scanning
    from the left, occurrences not overlapping.  [skip] counts the characters
    of a match that remain to be dropped. *)
Fixpoint replace_from (old new s : string) (skip : nat) : string :=
  match s with
  | EmptyString => EmptyString
  | String c s' =>
      match skip with
      | S k => replace_from old new s' k
      | O =>
          if prefix old s
          then new ++ replace_from old new s' (Nat.pred (String.length old))
          else String c (replace_from old new s' O)
      end
  end.

Definition replace (old new s : string) : string := replace_from old new s O.

(** A decimal digit and its value. *)
Definition digit_char (d : Z) : ascii :=
  match d with
  | 0 => "0" | 1 => "1" | 2 => "2" | 3 => "3" | 4 => "4"
  | 5 => "5" | 6 => "6" | 7 => "7" | 8 => "8" | _ => "9"
  end%char.

Definition digit_val (c : ascii) : option Z :=
  let n := Z.of_N (N_of_ascii c) in
  if (48 <=? n) && (n <=? 57) then Some (n - 48) else None.

Definition is_digit (c : ascii) : bool :=
  match digit_val c with
  | Some _ => true
  | None => false
  end.

(** ["%0wd" % n] for [0 <= n < 10^w]: exactly [w] digits. *)
Fixpoint zero_padded (w : nat) (n : Z) : string :=
  match w with
  | O => EmptyString
  | S w' => String (digit_char (n / 10 ^ Z.of_nat w' mod 10)) (zero_padded w' n)
  end.

(** ["%d" % n] for [0 <= n]: the decimal digits, without padding; [fuel]
    bounds their number. *)
Fixpoint decimal_digits (fuel : nat) (n : Z) (acc : string) : string :=
  match fuel with
  | O => acc
  | S fuel' =>
      let acc' := String (digit_char (n mod 10)) acc in
      if n <? 10 then acc' else decimal_digits fuel' (n / 10) acc'
  end.

Definition decimal (n : Z) : string :=
  decimal_digits (S (Z.to_nat (Z.log2 n))) n "".

(** Reads exactly [w] decimal digits from the front of [s]. *)
Fixpoint read_digits (w : nat) (acc : Z) (s : string) : option (Z * string) :=
  match w with
  | O => Some (acc, s)
  | S w' =>
      match s with
      | EmptyString => None
      | String c s' =>
          match digit_val c with
          | Some d => read_digits w' (10 * acc + d) s'
          | None => None
          end
      end
  end.

(** ** The [datetime] library, as far as the receiver uses it *)

Module Datetime.

Local Open Scope Z_scope.

(** A [datetime]: the calendar fields and the zone's offset from UTC in
    microseconds ([None] for a naive value). *)
Record datetime : Type := mkDatetime {
  year : Z;
  month : Z;
  day : Z;
  hour : Z;
  minute : Z;
  second : Z;
  microsecond : Z;
  tzinfo : option Z
}.

Definition MAXORDINAL : Z := 3652059.
Definition DAY_US : Z := 86400 * 1000000.

Definition is_leap (y : Z) : bool :=
  (y mod 4 =? 0) && (negb (y mod 100 =? 0) || (y mod 400 =? 0)).

Definition days_before_year (y : Z) : Z :=
  let y := y - 1 in y * 365 + y / 4 - y / 100 + y / 400.

Definition DAYS_IN_MONTH (m : Z) : Z :=
  match m with
  | 2 => 28
  | 4 | 6 | 9 | 11 => 30
  | _ => 31
  end.

Definition DAYS_BEFORE_MONTH (m : Z) : Z :=
  match m with
  | 1 => 0 | 2 => 31 | 3 => 59 | 4 => 90 | 5 => 120 | 6 => 151
  | 7 => 181 | 8 => 212 | 9 => 243 | 10 => 273 | 11 => 304 | _ => 334
  end.

Definition days_in_month (y m : Z) : Z :=
  if (m =? 2) && is_leap y then 29 else DAYS_IN_MONTH m.

Definition days_before_month (y m : Z) : Z :=
  DAYS_BEFORE_MONTH m + (if (2 <? m) && is_leap y then 1 else 0).

Definition ymd2ord (y m d : Z) : Z :=
  days_before_year y + days_before_month y m + d.

Definition ord2ymd (n : Z) : Z * Z * Z :=
  let n := n - 1 in
  let n400 := n / 146097 in
  let n := n mod 146097 in
  let y := n400 * 400 + 1 in
  let n100 := n / 36524 in
  let n := n mod 36524 in
  let n4 := n / 1461 in
  let n := n mod 1461 in
  let n1 := n / 365 in
  let n := n mod 365 in
  let y := y + n100 * 100 + n4 * 4 + n1 in
  if (n1 =? 4) || (n100 =? 4) then (y - 1, 12, 31)
  else
    let leapyear := (n1 =? 3) && (negb (n4 =? 24) || (n100 =? 3)) in
    let m := Z.shiftr (n + 50) 5 in
    let preceding :=
      DAYS_BEFORE_MONTH m + (if (2 <? m) && leapyear then 1 else 0) in
    if n <? preceding then
      let m := m - 1 in
      let preceding :=
        preceding - (DAYS_IN_MONTH m + (if (m =? 2) && leapyear then 1 else 0)) in
      (y, m, n - preceding + 1)
    else (y, m, n - preceding + 1).

(** The checks of the constructor: fields in range, and an offset strictly
    within one day. *)
Definition check_fields (d : datetime) : bool :=
  (1 <=? year d) && (year d <=? 9999) &&
  (1 <=? month d) && (month d <=? 12) &&
  (1 <=? day d) && (day d <=? days_in_month (year d) (month d)) &&
  (0 <=? hour d) && (hour d <? 24) &&
  (0 <=? minute d) && (minute d <? 60) &&
  (0 <=? second d) && (second d <? 60) &&
  (0 <=? microsecond d) && (microsecond d <? 1000000) &&
  match tzinfo d with
  | None => true
  | Some off => (- DAY_US <? off) && (off <? DAY_US)
  end.

(** Microseconds since the start of day 0 of the proleptic calendar, on the
    value's own clock. *)
Definition local_us (d : datetime) : Z :=
  ((ymd2ord (year d) (month d) (day d) * 24 + hour d) * 60 + minute d) * 60
    * 1000000 + second d * 1000000 + microsecond d.

(** [d - delta] with the result's zone replaced by [tz]; [None] is the
    [OverflowError] raised when the day leaves the calendar. *)
Definition sub_delta (d : datetime) (delta : Z) (tz : option Z)
  : option datetime :=
  let t := local_us d - delta in
  let days := t / DAY_US in
  let rest := t mod DAY_US in
  if (0 <? days) && (days <=? MAXORDINAL) then
    let '(y, m, dd) := ord2ymd days in
    let s := rest / 1000000 in
    Some (mkDatetime y m dd (s / 3600) (s mod 3600 / 60) (s mod 60)
                     (rest mod 1000000) tz)
  else None.

Section Zone.
(** The offset of the host's zone at a naive local time, in
    microseconds. *)
Variable local_utcoffset : datetime -> Z.

(** [d.astimezone(timezone.utc)]: the offset is subtracted, the zone set
    to UTC, and [timezone.utc.fromutc] adds its zero offset. *)
Definition astimezone_utc (d : datetime) : option datetime :=
  let myoffset :=
    match tzinfo d with
    | None => local_utcoffset d
    | Some off => off
    end in
  match sub_delta d myoffset (Some 0) with
  | Some utc => sub_delta utc 0 (Some 0)
  | None => None
  end.
End Zone.

(** The instant a value denotes, in microseconds, given the offset that
    applies to it. *)
Definition instant_us (local_utcoffset : datetime -> Z) (d : datetime) : Z :=
  local_us d - match tzinfo d with
               | None => local_utcoffset d
               | Some off => off
               end.

Local Open Scope string_scope.
Local Open Scope Z_scope.

(** [_format_offset]: [+HH:MM], then [:SS] and [.ffffff] when they are not
    zero. *)
Definition format_offset (off : Z) : string :=
  let sign := if off <? 0 then "-" else "+" in
  let a := Z.abs off in
  let hh := a / (3600 * 1000000) in
  let mm := a / (60 * 1000000) mod 60 in
  let ss := a / 1000000 mod 60 in
  let us := a mod 1000000 in
  sign ++ zero_padded 2 hh ++ ":" ++ zero_padded 2 mm
    ++ (if (ss =? 0) && (us =? 0) then ""
        else ":" ++ zero_padded 2 ss
               ++ (if us =? 0 then "" else "." ++ zero_padded 6 us)).

(** [d.isoformat()]: the date, [T], the time with its microseconds when
    they are not zero, and the offset of an aware value. *)
Definition isoformat (d : datetime) : string :=
  zero_padded 4 (year d) ++ "-" ++ zero_padded 2 (month d) ++ "-"
    ++ zero_padded 2 (day d) ++ "T"
    ++ zero_padded 2 (hour d) ++ ":" ++ zero_padded 2 (minute d) ++ ":"
    ++ zero_padded 2 (second d)
    ++ (if microsecond d =? 0 then "" else "." ++ zero_padded 6 (microsecond d))
    ++ match tzinfo d with
       | None => ""
       | Some off => format_offset off
       end.

(** [d.strftime("%Y-%m-%d %H:00")], which the C library of the platform
    formats.  [%m], [%d] and [%H] take two digits; [%Y] is the year as a
    decimal number, and the GNU C library does not pad it: the year 999
    prints as [999], where [isoformat] writes [0999]. *)
Definition strftime_hour (d : datetime) : string :=
  decimal (year d) ++ "-" ++ zero_padded 2 (month d) ++ "-"
    ++ zero_padded 2 (day d) ++ " " ++ zero_padded 2 (hour d) ++ ":00".

(** *** Reading an ISO string

    [datetime.fromisoformat] as CPython 3.11 implements it, in C, on the
    UTF-8 bytes of the string, which the byte 0 ends.  A pointer into the
    bytes is modelled by the bytes from it on, and the end of the part being
    read by its distance from the pointer. *)

Definition NUL : ascii := Ascii.zero.

(** [*p] and [p + 1]. *)
Definition peek (p : string) : ascii :=
  match p with
  | String c _ => c
  | EmptyString => NUL
  end.

Definition next (p : string) : string :=
  match p with
  | String _ p' => p'
  | EmptyString => EmptyString
  end.

Fixpoint skip (n : nat) (p : string) : string :=
  match n with
  | O => p
  | S n' => skip n' (next p)
  end.

(** The bytes from the first one that is not a digit. *)
Fixpoint skip_digits (p : string) : string :=
  match p with
  | String c p' => if is_digit c then skip_digits p' else p
  | EmptyString => p
  end.

(** [_find_isoformat_datetime_separator]: where the date ends, told from
    the bytes 4 and 5 ([YYYY-MM-DD], [YYYYMMDD], [YYYY-Www], [YYYYWww],
    [YYYY-Www-D], [YYYYWwwD]); [len] is the number of bytes, at least 7. *)
Definition find_isoformat_datetime_separator (dtstr : string) (len : nat)
  : option nat :=
  if (len =? 7)%nat then Some 7%nat
  else if Ascii.eqb (peek (skip 4 dtstr)) "-" then
    if Ascii.eqb (peek (skip 5 dtstr)) "W" then
      if (len <? 8)%nat then None
      else if (8 <? len)%nat && Ascii.eqb (peek (skip 8 dtstr)) "-" then
        if (len =? 9)%nat then None
        else if (10 <? len)%nat && is_digit (peek (skip 10 dtstr))
             then Some 8%nat
             else Some 10%nat
      else Some 8%nat
    else Some 10%nat
  else if Ascii.eqb (peek (skip 4 dtstr)) "W" then
    let idx :=
      (len - String.length (skip_digits (skip 7 dtstr)))%nat in
    if (idx <? 9)%nat then Some idx
    else if Nat.even idx then Some 7%nat else Some 8%nat
  else Some 8%nat.

(** [weekday]: 0 for a Monday. *)
Definition weekday (y m d : Z) : Z := (ymd2ord y m d + 6) mod 7.

(** [iso_week1_monday]: the ordinal of the Monday that starts the first ISO
    week of the year. *)
Definition iso_week1_monday (y : Z) : Z :=
  let first_day := ymd2ord y 1 1 in
  let first_weekday := (first_day + 6) mod 7 in
  let week1_monday := first_day - first_weekday in
  if 3 <? first_weekday then week1_monday + 7 else week1_monday.

(** [iso_to_ymd]: the date of a day of an ISO week. *)
Definition iso_to_ymd (iso_year iso_week iso_day : Z) : option (Z * Z * Z) :=
  let week_ok :=
    if (iso_week <=? 0) || (53 <=? iso_week) then
      (iso_week =? 53)
      && ((weekday iso_year 1 1 =? 3)
          || ((weekday iso_year 1 1 =? 2) && is_leap iso_year))
    else true in
  if negb week_ok then None
  else if (iso_day <=? 0) || (8 <=? iso_day) then None
  else
    let day_offset := (iso_week - 1) * 7 + iso_day - 1 in
    Some (ord2ymd (iso_week1_monday iso_year + day_offset)).

(** [parse_isoformat_date]: the date, which ends [len] bytes from the
    start. *)
Definition parse_isoformat_date (dtstr : string) (len : nat)
  : option (Z * Z * Z) :=
  match read_digits 4 0 dtstr with
  | None => None
  | Some (y, p) =>
      let uses_separator := Ascii.eqb (peek p) "-" in
      let p := if uses_separator then next p else p in
      if Ascii.eqb (peek p) "W" then
        match read_digits 2 0 (next p) with
        | None => None
        | Some (iso_week, p) =>
            if ((if uses_separator then 8 else 7) <? len)%nat then
              if uses_separator && negb (Ascii.eqb (peek p) "-") then None
              else
                match read_digits 1 0 (if uses_separator then next p else p)
                with
                | None => None
                | Some (iso_day, _) => iso_to_ymd y iso_week iso_day
                end
            else iso_to_ymd y iso_week 1
        end
      else
        match read_digits 2 0 p with
        | None => None
        | Some (m, p) =>
            if uses_separator && negb (Ascii.eqb (peek p) "-") then None
            else
              match read_digits 2 0 (if uses_separator then next p else p)
              with
              | None => None
              | Some (d, _) => Some (y, m, d)
              end
        end
  end.

(** What [parse_hh_mm_ss_ff] finds after two digits and the byte [c] that
    follows them, with [n] bytes left of the part after that byte. *)
Inductive after_field : Type :=
| Stop (leftover : bool)
| Field (p : string) (n : Z)
| Fraction (p : string) (n : Z)
| Malformed.

Definition field_end (has_separator : bool) (p : string) (n : Z)
  : after_field :=
  let c := peek p in
  if n - 1 <=? 0 then Stop (negb (Ascii.eqb c NUL))
  else if has_separator && Ascii.eqb c ":" then Field (next p) (n - 1)
  else if Ascii.eqb c "." || Ascii.eqb c "," then Fraction (next p) (n - 1)
  else if negb has_separator then Field p n
  else Malformed.

(** The fraction of a second: at most six digits are read, the further
    ones skipped; the flag tells that the byte after them is not the end of
    the string. *)
Definition parse_fraction (p : string) (n : Z) : option (Z * bool) :=
  let to_parse := if 6 <=? n then 6 else n in
  match read_digits (Z.to_nat to_parse) 0 p with
  | None => None
  | Some (f, p) =>
      Some (f * 10 ^ (6 - to_parse),
            negb (Ascii.eqb (peek (skip_digits p)) NUL))
  end.

(** [parse_hh_mm_ss_ff]: [HH[:MM[:SS]]] or [HH[MM[SS]]], then a fraction,
    in the [n] bytes from [tstr]; the flag tells that bytes are left
    over. *)
Definition parse_hh_mm_ss_ff (tstr : string) (n : Z)
  : option (Z * Z * Z * Z * bool) :=
  match read_digits 2 0 tstr with
  | None => None
  | Some (hh, p) =>
      let has_separator := Ascii.eqb (peek p) ":" in
      match field_end has_separator p (n - 2) with
      | Stop l => Some (hh, 0, 0, 0, l)
      | Malformed => None
      | Fraction p n =>
          match parse_fraction p n with
          | Some (us, l) => Some (hh, 0, 0, us, l)
          | None => None
          end
      | Field p n =>
          match read_digits 2 0 p with
          | None => None
          | Some (mm, p) =>
              match field_end has_separator p (n - 2) with
              | Stop l => Some (hh, mm, 0, 0, l)
              | Malformed => None
              | Fraction p n =>
                  match parse_fraction p n with
                  | Some (us, l) => Some (hh, mm, 0, us, l)
                  | None => None
                  end
              | Field p n =>
                  match read_digits 2 0 p with
                  | None => None
                  | Some (ss, p) =>
                      match field_end has_separator p (n - 2) with
                      | Stop l => Some (hh, mm, ss, 0, l)
                      | Malformed => None
                      | Fraction p n | Field p n =>
                          match parse_fraction p n with
                          | Some (us, l) => Some (hh, mm, ss, us, l)
                          | None => None
                          end
                      end
                  end
              end
          end
      end
  end.

(** The first of [Z], [+] and [-] in the [n] bytes from [p], or [n] when
    there is none; the first byte is looked at in any case. *)
Fixpoint tzinfo_pos (p : string) (n : nat) : nat :=
  let c := peek p in
  if Ascii.eqb c "Z" || Ascii.eqb c "+" || Ascii.eqb c "-" then 0%nat
  else
    match n with
    | O | 1%nat => 1%nat
    | S n' => S (tzinfo_pos (next p) n')
    end.

(** [parse_isoformat_time]: the clock fields and the zone, in the [dtlen]
    bytes from [dtstr].  Bytes left over by the clock fields are an error
    only when no zone follows; an offset of no whole second is UTC, whatever
    its fraction. *)
Definition parse_isoformat_time (dtstr : string) (dtlen : nat)
  : option (Z * Z * Z * Z * option Z) :=
  let pos := tzinfo_pos dtstr dtlen in
  match parse_hh_mm_ss_ff dtstr (Z.of_nat pos) with
  | None => None
  | Some (hh, mm, ss, us, leftover) =>
      if (pos =? dtlen)%nat then
        if leftover then None else Some (hh, mm, ss, us, None)
      else
        let tz := skip pos dtstr in
        if Ascii.eqb (peek tz) "Z" then
          if Ascii.eqb (peek (next tz)) NUL
          then Some (hh, mm, ss, us, Some 0)
          else None
        else
          let tzsign := if Ascii.eqb (peek tz) "-" then -1 else 1 in
          match parse_hh_mm_ss_ff (next tz)
                                  (Z.of_nat dtlen - Z.of_nat pos - 1) with
          | Some (h, m, s, f, false) =>
              let tzoffset := (h * 60 + m) * 60 + s in
              Some (hh, mm, ss, us,
                    Some (if tzoffset =? 0 then 0
                          else tzsign * (tzoffset * 1000000 + f)))
          | _ => None
          end
  end.

(** The bytes of the UTF-8 character that starts with [c]. *)
Definition utf8_width (c : ascii) : nat :=
  let b := N_of_ascii c in
  if (b <? 128)%N then 1%nat
  else if (N.land b 240 =? 224)%N then 3%nat
  else if (N.land b 240 =? 240)%N then 4%nat
  else 2%nat.

(** [datetime.fromisoformat]; [None] is the [ValueError] of a string that
    is not read, or of fields out of range. *)
Definition fromisoformat (s : string) : option datetime :=
  let len := String.length s in
  if (len <? 7)%nat then None
  else
    match find_isoformat_datetime_separator s len with
    | None => None
    | Some sep =>
        match parse_isoformat_date s sep with
        | None => None
        | Some (y, m, d) =>
            let made t :=
              let '(hh, mm, ss, us, tz) := t in
              let dt := mkDatetime y m d hh mm ss us tz in
              if check_fields dt then Some dt else None in
            if (sep <? len)%nat then
              let p := skip sep s in
              let w := utf8_width (peek p) in
              match parse_isoformat_time (skip w p) (len - sep - w) with
              | Some t => made t
              | None => None
              end
            else made (0, 0, 0, 0, None)
        end
    end.

End Datetime.

(** ** Ingestion *)

Import Datetime.

(** A decoded JSON value; the body of a request is a dictionary of them. *)
#[warnings="-register-all"]
Inductive json : Type :=
| JNull
| JBool (b : bool)
| JInt (z : Z)
| JFloat (f : float)
| JString (s : string)
| JArray (l : list json)
| JObject (l : list (string * json)).

Fixpoint lookup {V : Type} (k : string) (d : dict V) : option V :=
  match d with
  | [] => None
  | (k', v) :: d' => if String.eqb k k' then Some v else lookup k d'
  end.

(** The validated model of the request body. *)
Module Transaction.
Record t : Type := mk {
  id : string;
  account : string;
  amount : float;
  timestamp : datetime;
  type : tx_type
}.
End Transaction.

(** What the endpoint answers: 201 with the identifier, 422 when the body
    does not validate, 500 when the handler raises. *)
Inductive response : Type :=
| Accepted (id : string)
| ValidationError
| ServerError.

Section Receiver.
(** The zone of the host, used for a timestamp that names none. *)
Variable local_utcoffset : datetime -> Z.
(** The validating library's reading of an amount that is not a JSON
    number, and of a timestamp. *)
Variable lax_float : json -> option float.
Variable datetime_of_json : json -> option datetime.

Definition validate_str (j : option json) : option string :=
  match j with
  | Some (JString s) => Some s
  | _ => None
  end.

(** A JSON number validates as a float; an integer is converted by
    [float], which raises on an integer beyond the doubles: such a body does
    not validate. *)
Definition validate_float (j : option json) : option float :=
  match j with
  | Some (JFloat f) => Some f
  | Some (JInt z) =>
      if PrimFloat.is_infinity (float_of_Z z) then None
      else Some (float_of_Z z)
  | Some j => lax_float j
  | None => None
  end.

Definition validate_datetime (j : option json) : option datetime :=
  match j with
  | Some j => datetime_of_json j
  | None => None
  end.

(** [Literal["credit", "debit"]]: one of the two strings, nothing else. *)
Definition validate_type (j : option json) : option tx_type :=
  match j with
  | Some (JString s) =>
      if String.eqb s "credit" then Some credit
      else if String.eqb s "debit" then Some debit
      else None
  | _ => None
  end.

(** Validation of a body against [Transaction]: every field is required
    and must validate; other keys are ignored. *)
Definition validate (body : json) : option Transaction.t :=
  match body with
  | JObject d =>
      match validate_str (lookup "id" d),
            validate_str (lookup "account" d),
            validate_float (lookup "amount" d),
            validate_datetime (lookup "timestamp" d),
            validate_type (lookup "type" d) with
      | Some i, Some a, Some x, Some ts, Some ty =>
          Some (Transaction.mk i a x ts ty)
      | _, _, _, _, _ => None
      end
  | _ => None
  end.

(** The line the handler writes: the dumped model, its timestamp replaced
    by the UTC rendering with [+00:00] turned into [Z]. *)
Definition stored_timestamp (utc : datetime) : string :=
  replace "+00:00" "Z" (isoformat utc).

Definition append_line (f : file) (r : record) : file :=
  match f with
  | None => Some [Entry r]
  | Some ls => Some (ls ++ [Entry r])%list
  end.

(** The handler of [POST /transactions]. *)
Definition recieve_transaction (tx : Transaction.t) (f : file)
  : response * file :=
  match astimezone_utc local_utcoffset (Transaction.timestamp tx) with
  | Some utc =>
      let record :=
        mkRecord (Transaction.id tx) (Transaction.account tx)
                 (Transaction.amount tx) (stored_timestamp utc)
                 (Transaction.type tx) in
      (Accepted (Transaction.id tx), append_line f record)
  | None => (ServerError, f)
  end.

(** The endpoint: the body is validated, then handled. *)
Definition post_transactions (body : json) (f : file) : response * file :=
  match validate body with
  | Some tx => recieve_transaction tx f
  | None => (ValidationError, f)
  end.
End Receiver.

(** ** Timeline *)

Record bucket_data : Type := mkBucket {
  bucket_credits : number;
  bucket_debits : number;
  bucket_count : Z
}.

Definition default_bucket : bucket_data := mkBucket (Int 0) (Int 0) 0.

Record timeline_row : Type := mkTimelineRow {
  tl_timestamp : string;
  tl_credits : number;
  tl_debits : number;
  tl_count : Z
}.

(** The bucket of a stored timestamp: parsed with its [Z] spelled as an
    offset, printed down to the hour. *)
Definition hour_key (ts : string) : option string :=
  option_map strftime_hour (fromisoformat (replace "Z" "+00:00" ts)).

Definition bucket_step (data : bucket_data) (tx : record) : bucket_data :=
  let data := mkBucket (bucket_credits data) (bucket_debits data)
                       (bucket_count data + 1) in
  match rec_type tx with
  | credit =>
      mkBucket (add (bucket_credits data) (Float (rec_amount tx)))
               (bucket_debits data) (bucket_count data)
  | debit =>
      mkBucket (bucket_credits data)
               (add (bucket_debits data) (Float (rec_amount tx)))
               (bucket_count data)
  end.

(** The loop over the transactions; [None] when a timestamp does not
    parse. *)
Fixpoint timeline_loop (txs : list record) (timeline : dict bucket_data)
  : option (dict bucket_data) :=
  match txs with
  | [] => Some timeline
  | tx :: txs' =>
      match hour_key (rec_timestamp tx) with
      | Some k =>
          timeline_loop txs'
            (update default_bucket k (fun data => bucket_step data tx) timeline)
      | None => None
      end
  end.

Definition get_timeline (f : file) : option (list timeline_row) :=
  let transactions := read_transactions f in
  match transactions with
  | [] => Some []
  | _ =>
      match timeline_loop transactions [] with
      | Some timeline =>
          Some (map (fun '(timestamp, data) =>
                       mkTimelineRow timestamp
                                     (round2 (bucket_credits data))
                                     (round2 (bucket_debits data))
                                     (bucket_count data))
                    (sorted fst String.ltb false timeline))
      | None => None
      end
  end.

(** ** Recent *)

(** [l[:k]]: a negative [k] counts from the end. *)
Definition slice_to {A : Type} (l : list A) (k : Z) : list A :=
  let stop := if k <? 0 then Z.max 0 (len l + k) else k in
  firstn (Z.to_nat stop) l.

Definition get_recent (limit : option Z) (f : file) : list record :=
  let limit := match limit with Some n => n | None => 10 end in
  let transactions := read_transactions f in
  let sorted_txs := sorted rec_timestamp String.ltb true transactions in
  slice_to sorted_txs limit.

(** ** The generator *)

(** [bank_simulator.py].  What the generator takes from its environment is
    made explicit: the random numbers and the clock are the draws of each
    call of [make_tx], the HTTP submission is a function from the posted
    transaction to its outcome, and what the program does is the trace of
    its posts, prints and sleeps. *)

(** What one call of [make_tx] draws from its environment: the hexadecimal
    digits of a fresh UUID, three random numbers and the clock. *)
Record draw : Type := mkDraw {
  uuid_hex : string;
  account_draw : nat;
  uniform_draw : float;
  now_utc : datetime;
  type_draw : nat
}.

(** [random.choice(seq)]: [None] is the [IndexError] of an empty sequence;
    otherwise an element at an index below the length. *)
Definition choice {A : Type} (seq : list A) (r : nat) : option A :=
  match seq with
  | [] => None
  | _ => nth_error seq (r mod List.length seq)
  end.

(** [random.uniform(a, b)], from a draw [r] of [random()]. *)
Definition uniform (a b r : float) : float :=
  PrimFloat.add a (PrimFloat.mul (PrimFloat.sub b a) r).

(** [make_tx]: the dictionary of a synthetic transaction; [None] when the
    list of accounts is empty. *)
Definition make_tx (dr : draw) (account : list string) : option json :=
  match choice account (account_draw dr),
        choice ["credit"; "debit"] (type_draw dr) with
  | Some a, Some ty =>
      Some (JObject
              [("id", JString ("tx-" ++ uuid_hex dr));
               ("account", JString a);
               ("amount", JFloat (float_round2 (uniform 10 2000 (uniform_draw dr))));
               ("timestamp", JString (replace "+00:00" "Z" (isoformat (now_utc dr))));
               ("type", JString ty)])
  | _, _ => None
  end.

(** What a submission comes to: a response, or an exception of the
    transport, which the [except] clause catches. *)
Inductive reply : Type :=
| Replied (status : Z) (text : string)
| Raised (error : string).

(** What the generator does, in order: it posts a transaction, prints the
    outcome, sleeps. *)
Inductive event : Type :=
| Posted (i : Z) (tx : json)
| Printed (i : Z) (r : reply)
| Slept (delay : float).

(** [delay = 1.0 / rate if rate > 0 else 0.0]. *)
Definition delay_of (rate : float) : float :=
  if PrimFloat.ltb 0 rate then PrimFloat.div 1 rate else 0%float.

(** The truth value of a float: it is not zero. *)
Definition truthy (x : float) : bool := negb (PrimFloat.eqb x 0).

Section Generator.
(** The draws of the [i]-th call of [make_tx], and the outcome of the
    [i]-th submission. *)
Variable draws : Z -> draw.
Variable transport : Z -> json -> reply.
(** Whether [time.sleep] returns after the delay it is given: it raises
    when the platform cannot wait that long (an [OverflowError] from 2^63
    nanoseconds on, about 9.2e9 seconds). *)
Variable sleep_returns : float -> bool.
Variable count : Z.
Variable rate : float.
Variable accounts : list string.

(** The iterations [i, i + 1, ...] of the loop of [main], [n] of them; the
    flag tells whether the loop ran to its end.  The submission and the
    print are in the [try]; [make_tx] and [time.sleep] are not, so that an
    exception of either ends the program. *)
Fixpoint main_loop (n : nat) (i : Z) : list event * bool :=
  match n with
  | O => ([], true)
  | S n' =>
      match make_tx (draws i) accounts with
      | None => ([], false)
      | Some tx =>
          let printed := [Posted i tx; Printed i (transport i tx)] in
          if truthy (delay_of rate) && (i <? count) then
            if sleep_returns (delay_of rate) then
              let '(rest, finished) := main_loop n' (i + 1) in
              ((printed ++ Slept (delay_of rate) :: rest)%list, finished)
            else (printed, false)
          else
            let '(rest, finished) := main_loop n' (i + 1) in
            ((printed ++ rest)%list, finished)
      end
  end.

(** [main]: [for i in range(1, count + 1)]. *)
Definition main : list event * bool := main_loop (Z.to_nat count) 1.
End Generator.

(** The submissions, the sleeps and the outcomes printed, of a trace. *)
Definition posts (t : list event) : list (Z * json) :=
  flat_map (fun e => match e with Posted i tx => [(i, tx)] | _ => [] end) t.

Definition sleeps (t : list event) : list float :=
  flat_map (fun e => match e with Slept d => [d] | _ => [] end) t.

Definition prints (t : list event) : list (Z * reply) :=
  flat_map (fun e => match e with Printed i r => [(i, r)] | _ => [] end) t.

(** ** Vocabulary of the statements *)

(** The log holds no record: the file is absent or all its lines are
    blank. *)
Definition no_records (f : file) : Prop :=
  match f with
  | None => True
  | Some ls => Forall (fun l => l = Blank) ls
  end.

(** The records of one account, in arrival order. *)
Definition of_account (a : string) (txs : list record) : list record :=
  filter (fun tx => String.eqb (rec_account tx) a) txs.

(** Credits added and debits subtracted, in arrival order, from 0. *)
Definition signed_sum (txs : list record) : number :=
  fold_left
    (fun b tx =>
       match rec_type tx with
       | credit => add b (Float (rec_amount tx))
       | debit => sub b (Float (rec_amount tx))
       end)
    txs (Int 0).

(** [YYYY-MM-DD HH:00] cut out of a timestamp [YYYY-MM-DD?HH...]: its date,
    a space, its hour, and [:00] in place of what follows. *)
Definition truncate_hour (s : string) : string :=
  substring 0 10 s ++ " " ++ substring 11 2 s ++ ":00".

(** A string without its leading zeros. *)
Fixpoint lstrip_zeros (s : string) : string :=
  match s with
  | String "0" s' => lstrip_zeros s'
  | _ => s
  end.

(** The key of the bucket of a stored timestamp: its date and hour as
    above, the year without its leading zeros. *)
Definition bucket_key (s : string) : string := lstrip_zeros (truncate_hour s).

(** The records whose timestamp falls in the bucket [k]. *)
Definition in_hour (k : string) (txs : list record) : list record :=
  filter (fun tx => String.eqb (bucket_key (rec_timestamp tx)) k) txs.


(** A timestamp as the handler writes it: the rendering of a UTC value. *)
Definition written_timestamp (s : string) : Prop :=
  exists utc, check_fields utc = true /\ tzinfo utc = Some 0
              /\ s = replace "+00:00" "Z" (isoformat utc).

(** A host for the examples: its zone is UTC, and its validating library
    reads an ISO string for a timestamp and nothing but a number for an
    amount. *)
Module Host.
Definition local_utcoffset : datetime -> Z := fun _ => 0.
Definition lax_float : json -> option float := fun _ => None.
Definition datetime_of_json (j : json) : option datetime :=
  match j with
  | JString s => fromisoformat (replace "Z" "+00:00" s)
  | _ => None
  end.
Definition post : json -> file -> response * file :=
  post_transactions local_utcoffset lax_float datetime_of_json.
Definition body (id account : string) (amount : float)
           (timestamp type : string) : json :=
  JObject [("id", JString id); ("account", JString account);
           ("amount", JFloat amount); ("timestamp", JString timestamp);
           ("type", JString type)].
End Host.

(** [d[k]] on a [defaultdict], read without storing. *)
Definition get_or_default {V : Type} (dflt : V) (k : string) (d : dict V) : V :=
  match lookup k d with
  | Some v => v
  | None => dflt
  end.

(** The single pass both grouping queries make: each record updates the
    entry of its key. *)
Definition grouped {V : Type} (dflt : V) (key : record -> string)
           (step : V -> record -> V) (txs : list record) (d : dict V)
  : dict V :=
  fold_left (fun d tx => update dflt (key tx) (fun v => step v tx) d) txs d.

(** The records of one key, in arrival order. *)
Definition with_key (key : record -> string) (k : string)
           (txs : list record) : list record :=
  filter (fun tx => String.eqb (key tx) k) txs.

(** The row the by-account query makes of a dictionary entry. *)
Definition row_of (entry : string * account_data) : account_row :=
  let '(account, data) := entry in
  mkRow account (round2 (credits data)) (round2 (debits data))
        (round2 (balance data)) (count data).

(** A day number of the first 400 years is sent by [ord2ymd] to a date of
    the calendar, and [ymd2ord] sends the date back. *)
Definition ord_ok (n : Z) : bool :=
  let '(y, m, d) := ord2ymd n in
  (1 <=? y) && (y <=? 400) && (1 <=? m) && (m <=? 12) && (1 <=? d)
  && (d <=? days_in_month y m) && (ymd2ord y m d =? n).

(** [p] holds of [count] consecutive integers from [start]. *)
Fixpoint all_from (p : Z -> bool) (start : Z) (count : nat) : bool :=
  match count with
  | O => true
  | S c => p start && all_from p (start + 1) c
  end.

(** Every character of [s] satisfies [p]. *)
Fixpoint all_chars (p : ascii -> bool) (s : string) : bool :=
  match s with
  | EmptyString => true
  | String c s' => p c && all_chars p s'
  end.

(** An offset a zone may have: strictly within one day. *)
Definition zone_ok (tz : option Z) : Prop :=
  match tz with
  | None => True
  | Some off => - DAY_US < off < DAY_US
  end.

(** A character that is not [o]. *)
Definition other_than (o c : ascii) : bool := negb (Ascii.eqb c o).

(** A byte that starts no zone. *)
Definition no_zone (c : ascii) : bool :=
  negb (Ascii.eqb c "Z" || Ascii.eqb c "+" || Ascii.eqb c "-").

(** [YYYY-MM-DD] and [HH:MM:SS[.ffffff]] of a value. *)
Definition date_part (u : datetime) : string :=
  zero_padded 4 (year u) ++ "-" ++ zero_padded 2 (month u) ++ "-"
    ++ zero_padded 2 (day u).

Definition clock_part (u : datetime) : string :=
  zero_padded 2 (hour u) ++ ":" ++ zero_padded 2 (minute u) ++ ":"
    ++ zero_padded 2 (second u)
    ++ (if microsecond u =? 0 then "" else "." ++ zero_padded 6 (microsecond u)).

(** The bucket of a record, cut out of its timestamp. *)
Definition bucket_of (tx : record) : string :=
  bucket_key (rec_timestamp tx).

(** The row the timeline query makes of a dictionary entry. *)
Definition timeline_row_of (entry : string * bucket_data) : timeline_row :=
  let '(timestamp, data) := entry in
  mkTimelineRow timestamp (round2 (bucket_credits data))
                (round2 (bucket_debits data)) (bucket_count data).

(** ** Vocabulary of the further properties *)

(** The sum of a list of integers. *)
Definition total (l : list Z) : Z := fold_right Z.add 0 l.

(** The records that carry the timestamp [t], in the order of the list. *)
Definition at_time (t : string) (txs : list record) : list record :=
  filter (fun tx => String.eqb (rec_timestamp tx) t) txs.

(** The [time.sleep] of the example host: it waits any delay below 9e9
    seconds, and raises on a longer one, on a negative one and on NaN. *)
Definition host_sleep_returns (d : float) : bool :=
  PrimFloat.leb 0 d && PrimFloat.ltb d 9e9.

(** The names of the five fields of [Transaction]. *)
Definition required_fields : list string :=
  ["id"; "account"; "amount"; "timestamp"; "type"].

(** The lexicographic combination of two comparisons. *)
Definition lex (c1 c2 : comparison) : comparison :=
  match c1 with
  | Eq => c2
  | _ => c1
  end.

(** A date of the calendar. *)
Definition valid_date (y m d : Z) : Prop :=
  1 <= y <= 9999 /\ 1 <= m <= 12 /\ 1 <= d <= days_in_month y m.

(** How the tails of two stored timestamps compare once their seconds are
    equal: [Z] against [Z], [Z] against a fraction, or two fractions. *)
Definition fraction_compare (us us' : Z) : comparison :=
  match us =? 0, us' =? 0 with
  | true, true => Eq
  | true, false => Gt
  | false, true => Lt
  | false, false => us ?= us'
  end.

(** The fields of a value, compared from the year down to the second, then
    by [last]. *)
Definition fields_compare (u v : datetime) (last : comparison) : comparison :=
  lex (year u ?= year v)
    (lex (month u ?= month v)
       (lex (day u ?= day v)
          (lex (hour u ?= hour v)
             (lex (minute u ?= minute v)
                (lex (second u ?= second v) last))))).

(** * Properties *)

(** ** The stable sort *)

Section SortedFacts.
Context {A K : Type}.
Variable key : A -> K.
Variable lt : K -> K -> bool.

Lemma insert_desc_perm x l : Permutation (insert_desc key lt x l) (x :: l).
Proof.
  induction l as [|y l IH]; simpl; [reflexivity|].
  destruct (lt (key x) (key y)); [|reflexivity].
  rewrite IH. apply perm_swap.
Qed.

Lemma insert_asc_perm x l : Permutation (insert_asc key lt x l) (x :: l).
Proof.
  induction l as [|y l IH]; simpl; [reflexivity|].
  destruct (lt (key y) (key x)); [|reflexivity].
  rewrite IH. apply perm_swap.
Qed.

Lemma sorted_perm reverse l : Permutation (sorted key lt reverse l) l.
Proof.
  unfold sorted. induction l as [|x l IH]; simpl; [reflexivity|].
  destruct reverse.
  - rewrite insert_desc_perm. now constructor.
  - rewrite insert_asc_perm. now constructor.
Qed.

Lemma sorted_length reverse l :
  List.length (sorted key lt reverse l) = List.length l.
Proof. apply Permutation_length, sorted_perm. Qed.

Lemma sorted_In reverse l x : In x (sorted key lt reverse l) <-> In x l.
Proof.
  split; apply Permutation_in;
    [apply sorted_perm | symmetry; apply sorted_perm].
Qed.

Section Asymmetric.
Hypothesis lt_asym : forall x y, lt x y = true -> lt y x = false.

Lemma insert_desc_Sorted x l :
  Sorted (desc key lt) l -> Sorted (desc key lt) (insert_desc key lt x l).
Proof.
  induction l as [|y l IH]; simpl; intros Hs.
  - repeat constructor.
  - destruct (lt (key x) (key y)) eqn:E.
    + inversion Hs as [|? ? Hl Hh]; subst.
      constructor; [now apply IH|].
      destruct l as [|z l]; simpl.
      * constructor. now apply lt_asym.
      * destruct (lt (key x) (key z)).
        -- inversion Hh; subst. now constructor.
        -- constructor. now apply lt_asym.
    + constructor; [assumption|]. now constructor.
Qed.

Lemma insert_asc_Sorted x l :
  Sorted (asc key lt) l -> Sorted (asc key lt) (insert_asc key lt x l).
Proof.
  induction l as [|y l IH]; simpl; intros Hs.
  - repeat constructor.
  - destruct (lt (key y) (key x)) eqn:E.
    + inversion Hs as [|? ? Hl Hh]; subst.
      constructor; [now apply IH|].
      destruct l as [|z l]; simpl.
      * constructor. unfold asc. now apply lt_asym.
      * destruct (lt (key z) (key x)).
        -- inversion Hh; subst. now constructor.
        -- constructor. unfold asc. now apply lt_asym.
    + constructor; [assumption|]. now constructor.
Qed.

Lemma sorted_desc_Sorted l : Sorted (desc key lt) (sorted key lt true l).
Proof.
  unfold sorted. induction l; simpl; [constructor|].
  now apply insert_desc_Sorted.
Qed.

Lemma sorted_asc_Sorted l : Sorted (asc key lt) (sorted key lt false l).
Proof.
  unfold sorted. induction l; simpl; [constructor|].
  now apply insert_asc_Sorted.
Qed.

Section Total.
Hypothesis lt_negtrans :
  forall x y z, lt x y = false -> lt y z = false -> lt x z = false.


Lemma sorted_asc_StronglySorted l :
  StronglySorted (asc key lt) (sorted key lt false l).
Proof.
  apply Sorted_StronglySorted; [|apply sorted_asc_Sorted].
  intros a b c Hab Hbc. unfold asc in *. eapply lt_negtrans; eassumption.
Qed.
End Total.
End Asymmetric.
End SortedFacts.

(** ** The order of strings *)

Lemma ascii_compare_refl c : Ascii.compare c c = Eq.
Proof. unfold Ascii.compare. apply N.compare_refl. Qed.

Lemma string_compare_refl s : String.compare s s = Eq.
Proof.
  induction s as [|c s IH]; simpl; [reflexivity|].
  now rewrite ascii_compare_refl.
Qed.

Lemma string_compare_not_gt_trans a b c :
  String.compare a b <> Gt -> String.compare b c <> Gt ->
  String.compare a c <> Gt.
Proof.
  revert b c.
  induction a as [|x a IH]; intros [|y b] [|z c]; simpl; try congruence.
  unfold Ascii.compare.
  destruct (N.compare_spec (N_of_ascii x) (N_of_ascii y)) as [Exy|Lxy|Gxy];
    destruct (N.compare_spec (N_of_ascii y) (N_of_ascii z)) as [Eyz|Lyz|Gyz];
    intros Hab Hbc; try congruence.
  - rewrite Exy, Eyz, N.compare_refl. eauto.
  - rewrite Exy. apply N.compare_lt_iff in Lyz. now rewrite Lyz.
  - rewrite <- Eyz. apply N.compare_lt_iff in Lxy. now rewrite Lxy.
  - assert (H : (N_of_ascii x < N_of_ascii z)%N) by lia.
    apply N.compare_lt_iff in H. now rewrite H.
Qed.

Lemma string_ltb_asym a b : String.ltb a b = true -> String.ltb b a = false.
Proof.
  unfold String.ltb. rewrite (String.compare_antisym a b).
  destruct (String.compare b a); simpl; congruence.
Qed.

Lemma string_ltb_false a b :
  String.ltb a b = false <-> String.compare b a <> Gt.
Proof.
  unfold String.ltb. rewrite (String.compare_antisym b a).
  destruct (String.compare a b); simpl; split; congruence.
Qed.

Lemma string_ltb_negtrans a b c :
  String.ltb a b = false -> String.ltb b c = false -> String.ltb a c = false.
Proof.
  rewrite !string_ltb_false. intros Hba Hcb.
  eapply string_compare_not_gt_trans; eassumption.
Qed.

Lemma string_ltb_irrefl a : String.ltb a a = false.
Proof. unfold String.ltb. now rewrite string_compare_refl. Qed.

(** ** Reading and appending *)

Lemma read_no_records f : no_records f -> read_transactions f = [].
Proof.
  destruct f as [ls|]; simpl; [|reflexivity].
  induction 1 as [|l ls Hl _ IH]; simpl; [reflexivity|].
  now rewrite Hl.
Qed.

Lemma read_append_line f r :
  read_transactions (append_line f r) = (read_transactions f ++ [r])%list.
Proof.
  destruct f as [ls|]; simpl; [|reflexivity].
  now rewrite flat_map_app.
Qed.

Lemma len_app_one {A : Type} (l : list A) (x : A) :
  len (l ++ [x])%list = len l + 1.
Proof. unfold len. rewrite length_app. simpl. lia. Qed.

Lemma sum_snoc l x : sum (l ++ [x])%list = add (sum l) x.
Proof. unfold sum. now rewrite fold_left_app. Qed.

Lemma amounts_of_type_snoc t txs r :
  amounts_of_type t (txs ++ [r])%list =
  (amounts_of_type t txs
     ++ (if tx_type_eqb (rec_type r) t then [Float (rec_amount r)] else []))%list.
Proof.
  unfold amounts_of_type. rewrite filter_app, map_app. simpl.
  now destruct (tx_type_eqb (rec_type r) t).
Qed.

(** The fields of a summary, over the empty log as over any other. *)
Lemma summary_fields f :
  let txs := read_transactions f in
  total_transactions (get_summary f) = len txs
  /\ total_credits (get_summary f) = round2 (sum (amounts_of_type credit txs))
  /\ total_debits (get_summary f) = round2 (sum (amounts_of_type debit txs))
  /\ net_balance (get_summary f)
     = round2 (sub (sum (amounts_of_type credit txs))
                   (sum (amounts_of_type debit txs))).
Proof.
  unfold get_summary. destruct (read_transactions f); simpl; auto.
Qed.

(** ** Claims on the empty log and on validation *)

(** C8.  When the log file is missing or holds no record, every aggregation
    query returns its degenerate value: the six fields of the summary are
    zero, by-account and timeline are empty lists, and the type distribution
    counts no credit and no debit. *)
Theorem empty_log_degenerate (f : file) :
  no_records f ->
  get_summary f = mkSummary 0 (Int 0) (Int 0) (Int 0) (Int 0) 0
  /\ get_by_account f = []
  /\ get_timeline f = Some []
  /\ get_type_distribution f = mkDistribution 0 0.
Proof.
  intros H. apply read_no_records in H.
  unfold get_summary, get_by_account, get_timeline, get_type_distribution.
  rewrite H. repeat split.
Qed.

Lemma empty_log_degenerate_witness :
  (get_summary None = mkSummary 0 (Int 0) (Int 0) (Int 0) (Int 0) 0
   /\ get_by_account None = []
   /\ get_timeline None = Some []
   /\ get_type_distribution None = mkDistribution 0 0)
  /\ (get_summary (Some [Blank; Blank])
      = mkSummary 0 (Int 0) (Int 0) (Int 0) (Int 0) 0
      /\ get_by_account (Some [Blank; Blank]) = []
      /\ get_timeline (Some [Blank; Blank]) = Some []
      /\ get_type_distribution (Some [Blank; Blank]) = mkDistribution 0 0).
Proof.
  split.
  - apply (empty_log_degenerate None). exact I.
  - apply (empty_log_degenerate (Some [Blank; Blank])).
    simpl. repeat constructor.
Defined.

Section ReceiverFacts.
Variable local_utcoffset : datetime -> Z.
Variable lax_float : json -> option float.
Variable datetime_of_json : json -> option datetime.

Local Abbreviation post :=
  (post_transactions local_utcoffset lax_float datetime_of_json).

Lemma validate_type_other (j : option json) :
  j <> Some (JString "credit") -> j <> Some (JString "debit") ->
  validate_type j = None.
Proof.
  intros Hc Hd. destruct j as [[| | | |s| |]|]; simpl; try reflexivity.
  destruct (String.eqb_spec s "credit") as [->|_]; [congruence|].
  destruct (String.eqb_spec s "debit") as [->|_]; [congruence|].
  reflexivity.
Qed.

(** C3.  A submission whose type field is not one of "credit" and "debit"
    is rejected with a validation error and leaves the log file as it was;
    the total_transactions of a later summary is therefore the same. *)
Theorem invalid_type_rejected (d : dict json) (f : file) :
  lookup "type" d <> Some (JString "credit") ->
  lookup "type" d <> Some (JString "debit") ->
  post (JObject d) f = (ValidationError, f)
  /\ total_transactions (get_summary (snd (post (JObject d) f)))
     = total_transactions (get_summary f).
Proof.
  intros Hc Hd.
  assert (E : post (JObject d) f = (ValidationError, f)).
  { unfold post_transactions, validate.
    rewrite (validate_type_other _ Hc Hd).
    destruct (validate_str (lookup "id" d)),
             (validate_str (lookup "account" d)),
             (validate_float lax_float (lookup "amount" d)),
             (validate_datetime datetime_of_json (lookup "timestamp" d));
      reflexivity. }
  now rewrite E.
Qed.


End ReceiverFacts.

Lemma invalid_type_rejected_witness :
  Host.post (Host.body "t9" "A123" 12.5 "2024-05-01T10:15:00Z" "invalid") None
  = (ValidationError, None)
  /\ total_transactions
       (get_summary
          (snd (Host.post
                  (Host.body "t9" "A123" 12.5 "2024-05-01T10:15:00Z" "invalid")
                  None)))
     = total_transactions (get_summary None).
Proof.
  apply (invalid_type_rejected Host.local_utcoffset Host.lax_float
                               Host.datetime_of_json);
    simpl; discriminate.
Defined.




(** ** Recent *)


Lemma firstn_In {A : Type} (m : nat) (l : list A) x :
  In x (firstn m l) -> In x l.
Proof.
  revert m. induction l as [|y l IH]; intros [|m]; simpl; try tauto.
  intros [E|H]; [now left | right; eauto].
Qed.




Lemma StronglySorted_impl {A : Type} (R S : A -> A -> Prop) l :
  (forall a b, R a b -> S a b) -> StronglySorted R l -> StronglySorted S l.
Proof.
  intros HRS. induction 1 as [|x l Hl IH Hx]; constructor; auto.
  eapply Forall_impl; [|eassumption]. auto.
Qed.






(** ** Dictionaries in insertion order *)

Section DictFacts.
Context {V : Type}.
Variable dflt : V.

Lemma lookup_update_same k f (d : dict V) :
  lookup k (update dflt k f d) = Some (f (get_or_default dflt k d)).
Proof.
  unfold get_or_default.
  induction d as [|[k' v] d IH]; simpl.
  - now rewrite String.eqb_refl.
  - destruct (String.eqb k k') eqn:E; simpl; rewrite E; [reflexivity|exact IH].
Qed.

Lemma lookup_update_other k k' f (d : dict V) :
  k' <> k -> lookup k' (update dflt k f d) = lookup k' d.
Proof.
  intros Hne. induction d as [|[k0 v] d IH]; simpl.
  - destruct (String.eqb_spec k' k); [contradiction|reflexivity].
  - destruct (String.eqb_spec k k0) as [->|Hk]; simpl.
    + destruct (String.eqb_spec k' k0); [contradiction|reflexivity].
    + destruct (String.eqb k' k0); [reflexivity|exact IH].
Qed.

Lemma lookup_None_keys k (d : dict V) :
  lookup k d = None <-> ~ In k (map fst d).
Proof.
  induction d as [|[k' v] d IH]; simpl; [tauto|].
  destruct (String.eqb_spec k k') as [->|Hk].
  - split; [discriminate|]. intros H. exfalso. apply H. now left.
  - rewrite IH. split; [intros H [E|H']; [congruence|contradiction]|tauto].
Qed.

Lemma In_lookup k v (d : dict V) :
  NoDup (map fst d) -> In (k, v) d -> lookup k d = Some v.
Proof.
  induction d as [|[k' v'] d IH]; simpl; [tauto|].
  intros Hnd [E|Hin].
  - injection E as -> ->. now rewrite String.eqb_refl.
  - inversion Hnd as [|? ? Hk Hd]; subst.
    destruct (String.eqb_spec k k') as [->|_]; [|now apply IH].
    exfalso. apply Hk. change k' with (fst (k', v)). now apply in_map.
Qed.

Lemma lookup_In k v (d : dict V) : lookup k d = Some v -> In (k, v) d.
Proof.
  induction d as [|[k' v'] d IH]; simpl; [discriminate|].
  destruct (String.eqb_spec k k') as [->|_]; [|auto].
  intros E. injection E as ->. now left.
Qed.

Lemma update_keys k f (d : dict V) :
  map fst (update dflt k f d)
  = if in_dec string_dec k (map fst d) then map fst d
    else (map fst d ++ [k])%list.
Proof.
  induction d as [|[k' v] d IH]; simpl; [reflexivity|].
  destruct (String.eqb_spec k k') as [->|Hk]; simpl.
  - destruct (string_dec k' k'); [reflexivity|contradiction].
  - rewrite IH. destruct (string_dec k' k); [congruence|].
    now destruct (in_dec string_dec k (map fst d)).
Qed.

Lemma update_NoDup k f (d : dict V) :
  NoDup (map fst d) -> NoDup (map fst (update dflt k f d)).
Proof.
  intros H. rewrite update_keys.
  destruct (in_dec string_dec k (map fst d)) as [|Hn]; [assumption|].
  apply NoDup_app; [assumption|repeat constructor; simpl; tauto|].
  intros x Hx [<-|[]]. contradiction.
Qed.
End DictFacts.

(** ** Grouping in one pass *)

Section Grouping.
Context {V : Type}.
Variable dflt : V.
Variable key : record -> string.
Variable step : V -> record -> V.

Lemma grouped_snoc txs tx d :
  grouped dflt key step (txs ++ [tx]) d
  = update dflt (key tx) (fun v => step v tx) (grouped dflt key step txs d).
Proof. unfold grouped. now rewrite fold_left_app. Qed.

Lemma with_key_snoc k txs tx :
  with_key key k (txs ++ [tx])
  = (with_key key k txs ++ (if String.eqb (key tx) k then [tx] else []))%list.
Proof. unfold with_key. now rewrite filter_app. Qed.

(** After the pass a key holds the fold of its own records, and a key
    without records is absent. *)
Lemma grouped_lookup txs k :
  lookup k (grouped dflt key step txs [])
  = match with_key key k txs with
    | [] => None
    | l => Some (fold_left step l dflt)
    end.
Proof.
  induction txs as [|tx txs IH] using rev_ind; [reflexivity|].
  rewrite grouped_snoc, with_key_snoc.
  destruct (String.eqb_spec (key tx) k) as [<-|Hk].
  - rewrite lookup_update_same. unfold get_or_default. rewrite IH.
    destruct (with_key key (key tx) txs) as [|x l]; simpl; [reflexivity|].
    rewrite fold_left_app. simpl.
    destruct (l ++ [tx])%list eqn:E; [|reflexivity].
    now destruct l.
  - rewrite lookup_update_other by congruence.
    now rewrite app_nil_r.
Qed.

Lemma grouped_NoDup txs : NoDup (map fst (grouped dflt key step txs [])).
Proof.
  induction txs as [|tx txs IH] using rev_ind; [constructor|].
  rewrite grouped_snoc. now apply update_NoDup.
Qed.

Lemma with_key_nil k txs : with_key key k txs = [] <-> ~ In k (map key txs).
Proof.
  unfold with_key. induction txs as [|tx txs IH]; simpl; [tauto|].
  destruct (String.eqb_spec (key tx) k) as [E|E].
  - split; [discriminate|]. intros H. exfalso. apply H. now left.
  - rewrite IH. tauto.
Qed.

Lemma grouped_keys txs k :
  In k (map fst (grouped dflt key step txs [])) <-> In k (map key txs).
Proof.
  destruct (in_dec string_dec k (map fst (grouped dflt key step txs [])))
    as [Hin|Hout].
  - split; [intros _|intros _; exact Hin].
    destruct (in_dec string_dec k (map key txs)) as [H|H]; [exact H|].
    apply with_key_nil in H.
    pose proof (grouped_lookup txs k) as L. rewrite H in L.
    apply lookup_None_keys in L. contradiction.
  - split; [contradiction|]. intros H. exfalso.
    apply lookup_None_keys in Hout. rewrite grouped_lookup in Hout.
    destruct (with_key key k txs) eqn:E; [|discriminate].
    apply with_key_nil in E. contradiction.
Qed.

Lemma grouped_entry txs k v :
  In (k, v) (grouped dflt key step txs []) ->
  v = fold_left step (with_key key k txs) dflt /\ with_key key k txs <> [].
Proof.
  intros H. apply In_lookup in H; [|apply grouped_NoDup].
  rewrite grouped_lookup in H.
  destruct (with_key key k txs); [discriminate|].
  injection H as <-. split; [reflexivity|discriminate].
Qed.
End Grouping.

(** ** The order of numbers *)

Lemma SFcompare_antisym x y :
  SFcompare y x = option_map CompOpp (SFcompare x y).
Proof.
  destruct x as [sx|sx| |sx mx ex], y as [sy|sy| |sy my ey]; simpl;
    try reflexivity;
    try (destruct sx; reflexivity); try (destruct sy; reflexivity);
    try (destruct sx, sy; reflexivity).
  destruct sx, sy; simpl; try reflexivity;
    rewrite (Z.compare_antisym ex ey);
    destruct (Z.compare ex ey); simpl; try reflexivity;
    pose proof (Pos.compare_cont_antisym mx my Eq) as H; simpl in H;
    now rewrite H.
Qed.

Lemma float_ltb_asym x y :
  PrimFloat.ltb x y = true -> PrimFloat.ltb y x = false.
Proof.
  rewrite !ltb_spec. unfold SFltb.
  rewrite (SFcompare_antisym (Prim2SF x) (Prim2SF y)).
  destruct (SFcompare (Prim2SF x) (Prim2SF y)) as [[| |]|];
    simpl; congruence.
Qed.

Lemma SFcompare_refl_nan s : SFcompare s s = None -> s = S754_nan.
Proof. destruct s as [[|]|[|]| |[|] m e]; simpl; congruence. Qed.

Lemma float_not_nan x :
  PrimFloat.is_nan x = false -> Prim2SF x <> S754_nan.
Proof.
  unfold PrimFloat.is_nan. rewrite eqb_spec. unfold SFeqb.
  intros H E. rewrite E in H. discriminate.
Qed.

(** Between two floats that are numbers, not being below is being at
    least. *)
Lemma float_not_ltb_leb x y :
  PrimFloat.is_nan x = false -> PrimFloat.is_nan y = false ->
  PrimFloat.ltb x y = false -> PrimFloat.leb y x = true.
Proof.
  intros Hx Hy. apply float_not_nan in Hx, Hy.
  rewrite ltb_spec, leb_spec. unfold SFltb, SFleb.
  rewrite (SFcompare_antisym (Prim2SF x) (Prim2SF y)).
  destruct (Prim2SF x) as [sx|sx| |sx mx ex], (Prim2SF y) as [sy|sy| |sy my ey];
    try congruence;
    destruct (SFcompare _ _) as [[| |]|] eqn:E; simpl; try congruence;
    simpl in E; try discriminate;
    destruct sx; try destruct sy; discriminate.
Qed.

Lemma num_ltb_asym a b : Num.ltb a b = true -> Num.ltb b a = false.
Proof.
  destruct a, b; simpl; try apply float_ltb_asym. lia.
Qed.

(** ** The summary's three rounded sums *)

(** C2, as stated, fails.  With a credit of 0.3 and a debit of 0.1 the
    summary returns 0.3, 0.1 and 0.2, and 0.3 - 0.1 is not 0.2 in binary64;
    with a credit of 0.004 and a debit of 0.008 it returns 0.0, 0.01 and
    -0.0, and 0.0 - 0.01 is not zero. *)
Lemma net_balance_differs :
  (let s := get_summary
              (Some [Entry (mkRecord "t1" "A123" 0.3 "2024-05-01T09:00:00Z" credit);
                     Entry (mkRecord "t2" "A123" 0.1 "2024-05-01T09:30:00Z" debit)]) in
   total_credits s = Float 0.3 /\ total_debits s = Float 0.1
   /\ net_balance s = Float 0.2
   /\ Num.eqb (sub (total_credits s) (total_debits s)) (net_balance s) = false)
  /\ (let s := get_summary
                 (Some [Entry (mkRecord "t1" "A123" 0.004 "2024-05-01T09:00:00Z" credit);
                        Entry (mkRecord "t2" "A123" 0.008 "2024-05-01T09:30:00Z" debit)]) in
      total_credits s = Float 0 /\ total_debits s = Float 0.01
      /\ net_balance s = Float (-0)
      /\ Num.eqb (sub (total_credits s) (total_debits s)) (net_balance s) = false).
Proof. vm_compute. repeat split. Qed.

Lemma Prim2SF_inj x y : Prim2SF x = Prim2SF y -> x = y.
Proof.
  intros H. rewrite <- (SF2Prim_Prim2SF x), <- (SF2Prim_Prim2SF y). now rewrite H.
Qed.

(** Subtracting the float zero changes nothing. *)
Lemma float_sub_zero x : PrimFloat.sub x PrimFloat.zero = x.
Proof.
  apply Prim2SF_inj. rewrite sub_spec.
  change (Prim2SF PrimFloat.zero) with (S754_zero false).
  destruct (Prim2SF x) as [[|]|[|]| |[|] m e]; reflexivity.
Qed.

Lemma num_sub_int_zero a :
  sub a (Int 0) = match a with Int z => Int (z - 0) | Float x => Float x end.
Proof.
  destruct a as [z|x]; simpl; [reflexivity|].
  change (float_of_Z 0) with PrimFloat.zero. now rewrite float_sub_zero.
Qed.

Lemma num_eqb_refl a : Num.is_nan a = false -> Num.eqb a a = true.
Proof.
  destruct a as [z|x]; simpl; [intros _; apply Z.eqb_refl|].
  unfold PrimFloat.is_nan. now destruct (PrimFloat.eqb x x).
Qed.

(** C2, as the code has it.  total_credits, total_debits and net_balance
    are three separate roundings to two decimals: of the credit sum, of the
    debit sum, and of the difference of the two unrounded sums.
    total_credits - total_debits == net_balance holds on a log without
    records, where the three are 0, and on a log without debit records whose
    credit total is a number. *)
Theorem net_balance_rounds_difference (f : file) :
  total_credits (get_summary f)
  = round2 (sum (amounts_of_type credit (read_transactions f)))
  /\ total_debits (get_summary f)
     = round2 (sum (amounts_of_type debit (read_transactions f)))
  /\ net_balance (get_summary f)
     = round2 (sub (sum (amounts_of_type credit (read_transactions f)))
                   (sum (amounts_of_type debit (read_transactions f))))
  /\ (read_transactions f = [] ->
      Num.eqb (sub (total_credits (get_summary f)) (total_debits (get_summary f)))
              (net_balance (get_summary f)) = true)
  /\ (amounts_of_type debit (read_transactions f) = [] ->
      Num.is_nan (total_credits (get_summary f)) = false ->
      Num.eqb (sub (total_credits (get_summary f)) (total_debits (get_summary f)))
              (net_balance (get_summary f)) = true).
Proof.
  destruct (summary_fields f) as (_ & Hc & Hd & Hn).
  split; [assumption|]. split; [assumption|]. split; [assumption|]. split.
  - intros E. unfold get_summary. rewrite E. reflexivity.
  - intros E. rewrite Hn, Hd, Hc, E.
    change (sum []) with (Int 0). change (round2 (Int 0)) with (Int 0).
    rewrite !num_sub_int_zero.
    destruct (sum (amounts_of_type credit (read_transactions f))) as [z|x];
      simpl.
    + intros _. apply Z.eqb_refl.
    + unfold PrimFloat.is_nan.
      now destruct (PrimFloat.eqb (float_round2 x) (float_round2 x)).
Qed.

(** ** By account *)

Lemma signed_sum_snoc l tx :
  signed_sum (l ++ [tx])
  = match rec_type tx with
    | credit => add (signed_sum l) (Float (rec_amount tx))
    | debit => sub (signed_sum l) (Float (rec_amount tx))
    end.
Proof. unfold signed_sum. now rewrite fold_left_app. Qed.

(** What the accumulator of an account holds after its records. *)
Lemma account_fold l :
  fold_left account_step l default_data
  = mkData (sum (amounts_of_type credit l)) (sum (amounts_of_type debit l))
           (len l) (signed_sum l).
Proof.
  induction l as [|tx l IH] using rev_ind; [reflexivity|].
  rewrite fold_left_app, IH. simpl. unfold account_step. simpl.
  rewrite !amounts_of_type_snoc, signed_sum_snoc, len_app_one.
  destruct (rec_type tx); simpl; now rewrite sum_snoc, app_nil_r.
Qed.

Lemma signed_sum_float l : l <> [] -> exists b, signed_sum l = Float b.
Proof.
  induction l as [|tx l _] using rev_ind; [congruence|]. intros _.
  rewrite signed_sum_snoc.
  destruct (rec_type tx), (signed_sum l); simpl; eauto.
Qed.

Lemma get_by_account_rows f :
  get_by_account f
  = sorted row_balance Num.ltb true
           (map row_of (accounts_data (read_transactions f))).
Proof.
  reflexivity.
Qed.

Lemma row_of_account entry : row_account (row_of entry) = fst entry.
Proof. now destruct entry. Qed.

Lemma by_account_row f row :
  In row (get_by_account f) ->
  let mine := of_account (row_account row) (read_transactions f) in
  mine <> []
  /\ row_credits row = round2 (sum (amounts_of_type credit mine))
  /\ row_debits row = round2 (sum (amounts_of_type debit mine))
  /\ row_balance row = round2 (signed_sum mine)
  /\ row_count row = len mine.
Proof.
  rewrite get_by_account_rows, sorted_In, in_map_iff.
  intros ([a d] & <- & Hin). simpl.
  apply grouped_entry in Hin. destruct Hin as (-> & Hne).
  change (with_key rec_account a (read_transactions f))
    with (of_account a (read_transactions f)) in *.
  rewrite account_fold. simpl. auto.
Qed.

Lemma by_account_accounts f :
  Permutation (map row_account (get_by_account f))
              (map fst (accounts_data (read_transactions f))).
Proof.
  rewrite get_by_account_rows.
  rewrite (Permutation_map row_account (sorted_perm _ _ _ _)).
  rewrite map_map.
  erewrite map_ext; [reflexivity|]. apply row_of_account.
Qed.

Lemma Sorted_impl_In {A : Type} (R S : A -> A -> Prop) l :
  (forall a b, In a l -> In b l -> R a b -> S a b) -> Sorted R l -> Sorted S l.
Proof.
  intros H Hs. induction Hs as [|x l Hl IH Hh]; constructor.
  - apply IH. intros a b Ha Hb. apply H; now right.
  - destruct Hh as [|y l Hxy]; constructor.
    apply H; simpl; auto.
Qed.

(** C5.  The by-account query returns one row per account of the log; a
    row holds the sum of the account's credit amounts, the sum of its debit
    amounts, its balance (credits added and debits subtracted in arrival
    order) and the number of its records, the three sums rounded to two
    decimals; when no balance is NaN, the rows are in descending order of
    balance.  After a credit of 100.00 and a debit of 40.00 on A123 in an
    empty log, the row of A123 is credits 100.0, debits 40.0, balance 60.0,
    count 2. *)
Theorem by_account_groups (f : file) :
  NoDup (map row_account (get_by_account f))
  /\ (forall a, In a (map row_account (get_by_account f))
                <-> In a (map rec_account (read_transactions f)))
  /\ (forall row, In row (get_by_account f) ->
        let mine := of_account (row_account row) (read_transactions f) in
        row_credits row = round2 (sum (amounts_of_type credit mine))
        /\ row_debits row = round2 (sum (amounts_of_type debit mine))
        /\ row_balance row = round2 (signed_sum mine)
        /\ row_count row = len mine)
  /\ ((forall row, In row (get_by_account f) ->
         Num.is_nan (row_balance row) = false) ->
      Sorted (fun a b => Num.leb (row_balance b) (row_balance a) = true)
             (get_by_account f))
  /\ (forall i1 t1 i2 t2,
         get_by_account
           (Some [Entry (mkRecord i1 "A123" 100 t1 credit);
                  Entry (mkRecord i2 "A123" 40 t2 debit)])
         = [mkRow "A123" (Float 100) (Float 40) (Float 60) 2]).
Proof.
  split; [|split; [|split; [|split]]].
  - eapply Permutation_NoDup;
      [symmetry; apply by_account_accounts | apply grouped_NoDup].
  - intros a. rewrite <- (grouped_keys default_data rec_account account_step).
    split; apply Permutation_in;
      [apply by_account_accounts | symmetry; apply by_account_accounts].
  - intros row Hin.
    destruct (by_account_row f row Hin) as (_ & H1 & H2 & H3 & H4).
    cbv zeta. auto.
  - intros Hnan.
    assert (Hsorted :
              Sorted (fun a b => Num.ltb (row_balance a) (row_balance b) = false)
                     (get_by_account f)).
    { rewrite get_by_account_rows.
      apply (sorted_desc_Sorted row_balance Num.ltb num_ltb_asym). }
    revert Hsorted. apply Sorted_impl_In.
    intros a b Ha Hb Hab.
    pose proof (Hnan a Ha) as Na. pose proof (Hnan b Hb) as Nb.
    destruct (by_account_row f a Ha) as (Hne & _ & _ & Ea & _).
    destruct (by_account_row f b Hb) as (Hne' & _ & _ & Eb & _).
    destruct (signed_sum_float _ Hne) as (x & Ex).
    destruct (signed_sum_float _ Hne') as (y & Ey).
    rewrite Ex in Ea. rewrite Ey in Eb. simpl in Ea, Eb.
    rewrite Ea, Eb in *. simpl in *.
    now apply float_not_ltb_leb.
  - intros. reflexivity.
Qed.

(** An account credited and debited an infinite amount has the balance NaN,
    which no comparison orders: the rows then come with the balance 1.0
    ahead of the balance 2.0.  (The library reads the three rows in reverse,
    finds them to be a run in order, no comparison with NaN being true, and
    returns them as they were.) *)
Lemma by_account_not_descending :
  fold_left (fun f body => snd (Host.post body f))
            [Host.body "t1" "A123" 1 "2024-05-01T10:15:00Z" "credit";
             Host.body "t2" "B456" infinity "2024-05-01T10:16:00Z" "credit";
             Host.body "t3" "B456" infinity "2024-05-01T10:17:00Z" "debit";
             Host.body "t4" "C789" 2 "2024-05-01T10:18:00Z" "credit"]
            None
  = Some [Entry (mkRecord "t1" "A123" 1 "2024-05-01T10:15:00Z" credit);
          Entry (mkRecord "t2" "B456" infinity "2024-05-01T10:16:00Z" credit);
          Entry (mkRecord "t3" "B456" infinity "2024-05-01T10:17:00Z" debit);
          Entry (mkRecord "t4" "C789" 2 "2024-05-01T10:18:00Z" credit)]
  /\ get_by_account
       (Some [Entry (mkRecord "t1" "A123" 1 "2024-05-01T10:15:00Z" credit);
              Entry (mkRecord "t2" "B456" infinity "2024-05-01T10:16:00Z"
                              credit);
              Entry (mkRecord "t3" "B456" infinity "2024-05-01T10:17:00Z"
                              debit);
              Entry (mkRecord "t4" "C789" 2 "2024-05-01T10:18:00Z" credit)])
     = [mkRow "A123" (Float 1) (Int 0) (Float 1) 1;
        mkRow "B456" (Float infinity) (Float infinity) (Float nan) 2;
        mkRow "C789" (Float 2) (Int 0) (Float 2) 1]
  /\ Num.ltb (Float 1) (Float 2) = true
  /\ Num.leb (Float 2) (Float nan) = false.
Proof. vm_compute. repeat split. Qed.

(** ** The calendar *)

(** Linear arithmetic with quotients and remainders by constants. *)
Ltac dlia := Z.div_mod_to_equations; lia.

Lemma all_from_spec p start count :
  all_from p start count = true ->
  forall n, start <= n < start + Z.of_nat count -> p n = true.
Proof.
  revert start. induction count as [|c IH]; intros start H n Hn; [lia|].
  simpl in H. apply andb_prop in H. destruct H as [Hs Hr].
  destruct (Z.eq_dec n start) as [->|Hne]; [assumption|].
  apply (IH (start + 1)); [assumption|lia].
Qed.

(** The 146097 days of a cycle of 400 years, each one checked. *)
Lemma first_cycle_ok : all_from ord_ok 1 (Z.to_nat 146097) = true.
Proof. vm_compute. reflexivity. Qed.

Lemma is_leap_shift y q : is_leap (y + 400 * q) = is_leap y.
Proof.
  unfold is_leap.
  replace ((y + 400 * q) mod 4) with (y mod 4) by dlia.
  replace ((y + 400 * q) mod 100) with (y mod 100) by dlia.
  replace ((y + 400 * q) mod 400) with (y mod 400) by dlia.
  reflexivity.
Qed.

Lemma ymd2ord_shift y m d q :
  ymd2ord (y + 400 * q) m d = ymd2ord y m d + 146097 * q.
Proof.
  unfold ymd2ord, days_before_month, days_before_year.
  rewrite is_leap_shift. dlia.
Qed.

Lemma days_in_month_shift y m q :
  days_in_month (y + 400 * q) m = days_in_month y m.
Proof. unfold days_in_month. now rewrite is_leap_shift. Qed.

Lemma ord2ymd_shift n q :
  1 <= n <= 146097 ->
  ord2ymd (n + 146097 * q)
  = let '(y, m, d) := ord2ymd n in (y + 400 * q, m, d).
Proof.
  intros Hn. unfold ord2ymd.
  replace ((n + 146097 * q - 1) / 146097) with q by dlia.
  replace ((n + 146097 * q - 1) mod 146097) with (n - 1) by dlia.
  replace ((n - 1) / 146097) with 0 by dlia.
  replace ((n - 1) mod 146097) with (n - 1) by dlia.
  cbv zeta.
  repeat match goal with
         | |- context [if ?c then _ else _] =>
             lazymatch c with
             | context [if _ then _ else _] => fail
             | _ => destruct c
             end
         end; f_equal; try f_equal; lia.
Qed.

Lemma days_before_month_nonneg y m : 0 <= days_before_month y m.
Proof.
  unfold days_before_month, DAYS_BEFORE_MONTH.
  destruct ((2 <? m) && is_leap y);
    destruct m as [|p|p]; try lia;
    do 4 (try destruct p as [p|p|]; try lia).
Qed.

(** [ord2ymd] of a day of the calendar is a date of the calendar, whose
    ordinal is that day. *)
Lemma ord2ymd_valid n :
  1 <= n <= MAXORDINAL ->
  let '(y, m, d) := ord2ymd n in
  1 <= y <= 9999 /\ 1 <= m <= 12 /\ 1 <= d <= days_in_month y m
  /\ ymd2ord y m d = n.
Proof.
  unfold MAXORDINAL. intros Hn.
  set (q := (n - 1) / 146097).
  set (n0 := (n - 1) mod 146097 + 1).
  assert (En : n = n0 + 146097 * q) by (unfold n0, q; dlia).
  assert (Hn0 : 1 <= n0 <= 146097) by (unfold n0; dlia).
  assert (Hq : 0 <= q) by (unfold q; dlia).
  pose proof (all_from_spec _ _ _ first_cycle_ok n0) as Hok.
  rewrite En, (ord2ymd_shift n0 q Hn0).
  unfold ord_ok in Hok. destruct (ord2ymd n0) as [[y m] d].
  assert (H : (1 <=? y) && (y <=? 400) && (1 <=? m) && (m <=? 12) && (1 <=? d)
              && (d <=? days_in_month y m) && (ymd2ord y m d =? n0) = true)
    by (apply Hok; lia).
  repeat (apply andb_prop in H; destruct H as [H ?]).
  rewrite days_in_month_shift, ymd2ord_shift.
  assert (E0 : ymd2ord y m d = n0) by lia.
  assert (Hy : y + 400 * q <= 9999).
  { destruct (Z_le_gt_dec (y + 400 * q) 9999) as [|Hbig]; [assumption|].
    exfalso.
    pose proof (ymd2ord_shift y m d q) as Es.
    pose proof (days_before_month_nonneg (y + 400 * q) m) as Hm.
    unfold ymd2ord at 1, days_before_year in Es. dlia. }
  lia.
Qed.

(** ** Conversion to UTC *)

Lemma check_fields_intro d :
  1 <= year d <= 9999 -> 1 <= month d <= 12 ->
  1 <= day d <= days_in_month (year d) (month d) ->
  0 <= hour d < 24 -> 0 <= minute d < 60 -> 0 <= second d < 60 ->
  0 <= microsecond d < 1000000 -> zone_ok (tzinfo d) ->
  check_fields d = true.
Proof.
  intros Hy Hm Hd Hh Hmi Hs Hus Hz. unfold check_fields.
  repeat (apply andb_true_intro; split); try lia.
  unfold zone_ok in Hz. destruct (tzinfo d); [|reflexivity].
  apply andb_true_intro; split; lia.
Qed.

Lemma sub_delta_spec d delta tz u :
  sub_delta d delta tz = Some u -> zone_ok tz ->
  check_fields u = true /\ tzinfo u = tz /\ local_us u = local_us d - delta.
Proof.
  unfold sub_delta. intros H Hz.
  set (t := local_us d - delta) in *.
  destruct ((0 <? t / DAY_US) && (t / DAY_US <=? MAXORDINAL)) eqn:E;
    [|discriminate].
  apply andb_prop in E. destruct E as [E1 E2].
  pose proof (ord2ymd_valid (t / DAY_US)) as Hv.
  destruct (ord2ymd (t / DAY_US)) as [[y m] dd].
  destruct Hv as (Hy & Hm & Hd & Ho); [lia|].
  injection H as <-. unfold DAY_US in *.
  split; [|split; [reflexivity|]].
  - apply check_fields_intro; simpl; try assumption; dlia.
  - unfold local_us at 1. simpl. rewrite Ho. dlia.
Qed.

Lemma astimezone_utc_spec loc d u :
  astimezone_utc loc d = Some u ->
  check_fields u = true /\ tzinfo u = Some 0
  /\ instant_us loc u = instant_us loc d.
Proof.
  unfold astimezone_utc. intros H.
  destruct (sub_delta d _ (Some 0)) as [utc|] eqn:E1; [|discriminate].
  assert (Hz : zone_ok (Some 0)) by (unfold zone_ok, DAY_US; lia).
  apply sub_delta_spec in E1; [|exact Hz].
  apply sub_delta_spec in H; [|exact Hz].
  destruct E1 as (_ & _ & L1). destruct H as (Hc & Ht & L2).
  repeat split; try assumption.
  unfold instant_us. rewrite Ht, L2, L1. lia.
Qed.

(** ** Formatting and reading digits *)

Lemma digit_char_val x : 0 <= x <= 9 -> digit_val (digit_char x) = Some x.
Proof.
  intros H.
  assert (C : x = 0 \/ x = 1 \/ x = 2 \/ x = 3 \/ x = 4 \/ x = 5 \/ x = 6
              \/ x = 7 \/ x = 8 \/ x = 9) by lia.
  repeat (destruct C as [->|C]; [reflexivity|]). now subst.
Qed.

Lemma digit_char_is_digit x : is_digit (digit_char x) = true.
Proof.
  destruct x as [|p|p]; try reflexivity.
  do 4 (try destruct p as [p|p|]; try reflexivity).
Qed.

Lemma all_chars_app p a b :
  all_chars p (a ++ b) = all_chars p a && all_chars p b.
Proof.
  induction a as [|c a IH]; simpl; [reflexivity|].
  now rewrite IH, andb_assoc.
Qed.

Lemma all_chars_impl (p q : ascii -> bool) s :
  (forall c, p c = true -> q c = true) ->
  all_chars p s = true -> all_chars q s = true.
Proof.
  intros H. induction s as [|c s IH]; simpl; [reflexivity|].
  intros E. apply andb_prop in E. destruct E as [E1 E2].
  now rewrite (H c E1), IH.
Qed.

Lemma zero_padded_digits w n : all_chars is_digit (zero_padded w n) = true.
Proof.
  induction w as [|w IH]; simpl; [reflexivity|].
  now rewrite digit_char_is_digit, IH.
Qed.

Lemma zero_padded_length w n : String.length (zero_padded w n) = w.
Proof. induction w as [|w IH]; simpl; [reflexivity|]. now rewrite IH. Qed.

(** Reading back what was printed: the last [w] digits of [n]. *)
Lemma read_zero_padded w n acc rest :
  0 <= n ->
  read_digits w acc (zero_padded w n ++ rest)
  = Some (acc * 10 ^ Z.of_nat w + n mod 10 ^ Z.of_nat w, rest).
Proof.
  intros Hn. revert acc.
  induction w as [|w IH]; intros acc.
  - simpl. rewrite Z.mod_1_r. do 2 f_equal. lia.
  - cbn [zero_padded read_digits append].
    rewrite digit_char_val
      by (pose proof (Z.mod_pos_bound (n / 10 ^ Z.of_nat w) 10); lia).
    rewrite IH. do 2 f_equal.
    rewrite Nat2Z.inj_succ, Z.pow_succ_r by lia.
    assert (Hp : 0 < 10 ^ Z.of_nat w) by (apply Z.pow_pos_nonneg; lia).
    rewrite (Z.mul_comm 10 (10 ^ Z.of_nat w)).
    rewrite Z.rem_mul_r by lia. ring.
Qed.

Lemma read_zero_padded_exact w n rest :
  0 <= n < 10 ^ Z.of_nat w ->
  read_digits w 0 (zero_padded w n ++ rest) = Some (n, rest).
Proof.
  intros Hn. rewrite read_zero_padded by lia.
  now rewrite Z.mod_small by lia.
Qed.

(** ** Parts of a string *)

Lemma append_assoc (a b c : string) : (a ++ b) ++ c = a ++ (b ++ c).
Proof. induction a as [|x a IH]; simpl; [reflexivity|]. now rewrite IH. Qed.

Lemma append_nil_r (a : string) : a ++ "" = a.
Proof. induction a as [|x a IH]; simpl; [reflexivity|]. now rewrite IH. Qed.

Lemma length_append (a b : string) :
  String.length (a ++ b) = (String.length a + String.length b)%nat.
Proof. induction a as [|x a IH]; simpl; [reflexivity|]. now rewrite IH. Qed.

Lemma prefix_other o old c s :
  other_than o c = true -> prefix (String o old) (String c s) = false.
Proof.
  unfold other_than. intros H. simpl.
  destruct (ascii_dec o c) as [->|_]; [|reflexivity].
  now rewrite Ascii.eqb_refl in H.
Qed.

Lemma replace_from_skip o old new a rest :
  all_chars (other_than o) a = true ->
  replace_from (String o old) new (a ++ rest) 0
  = a ++ replace_from (String o old) new rest 0.
Proof.
  induction a as [|c a IH]; intros H; [reflexivity|].
  simpl in H. apply andb_prop in H. destruct H as [Hc Ha].
  cbn [append replace_from].
  rewrite (prefix_other o old c _ Hc), (IH Ha). reflexivity.
Qed.

(** ** The ISO rendering of a UTC value, and its reading *)

Lemma check_fields_elim d :
  check_fields d = true ->
  1 <= year d <= 9999 /\ 1 <= month d <= 12
  /\ 1 <= day d <= days_in_month (year d) (month d)
  /\ 0 <= hour d < 24 /\ 0 <= minute d < 60 /\ 0 <= second d < 60
  /\ 0 <= microsecond d < 1000000.
Proof.
  unfold check_fields. intros H.
  repeat (apply andb_prop in H; destruct H as [H ?]). lia.
Qed.

Lemma days_in_month_le y m : days_in_month y m <= 31.
Proof.
  unfold days_in_month, DAYS_IN_MONTH.
  destruct ((m =? 2) && is_leap y); [lia|].
  destruct m as [|p|p]; try lia;
    do 4 (try destruct p as [p|p|]; try lia).
Qed.

Lemma digit_other_than o c :
  is_digit o = false -> is_digit c = true -> other_than o c = true.
Proof.
  unfold other_than. intros Ho Hc.
  destruct (Ascii.eqb_spec c o) as [->|_]; [congruence|reflexivity].
Qed.

Lemma zero_padded_other o w n :
  is_digit o = false -> all_chars (other_than o) (zero_padded w n) = true.
Proof.
  intros Ho. eapply all_chars_impl; [|apply zero_padded_digits].
  intros c. now apply digit_other_than.
Qed.

Lemma date_part_other o u :
  is_digit o = false -> other_than o "-" = true ->
  all_chars (other_than o) (date_part u) = true.
Proof.
  intros Ho Hd. unfold date_part.
  rewrite !all_chars_app, !zero_padded_other by assumption.
  cbn [all_chars append andb]. now rewrite Hd.
Qed.

Lemma clock_part_other o u :
  is_digit o = false -> other_than o ":" = true -> other_than o "." = true ->
  all_chars (other_than o) (clock_part u) = true.
Proof.
  intros Ho Hc Hp. unfold clock_part.
  rewrite !all_chars_app, !zero_padded_other by assumption.
  destruct (microsecond u =? 0); cbn [all_chars append andb];
    rewrite ?Hc, ?Hp, ?zero_padded_other by assumption; reflexivity.
Qed.

Lemma isoformat_utc u :
  tzinfo u = Some 0 ->
  isoformat u = (date_part u ++ "T" ++ clock_part u) ++ "+00:00".
Proof.
  intros Ht. unfold isoformat, date_part, clock_part. rewrite Ht.
  change (format_offset 0) with "+00:00".
  rewrite !append_assoc. reflexivity.
Qed.

(** The stored timestamp of a UTC value: date, [T], clock, [Z]. *)
Lemma stored_timestamp_utc u :
  tzinfo u = Some 0 ->
  stored_timestamp u = (date_part u ++ "T" ++ clock_part u) ++ "Z".
Proof.
  intros Ht. unfold stored_timestamp, replace.
  rewrite (isoformat_utc u Ht).
  rewrite (replace_from_skip "+" "00:00" "Z"); [reflexivity|].
  rewrite !all_chars_app, date_part_other, clock_part_other; reflexivity.
Qed.

Lemma replace_Z_stored u :
  tzinfo u = Some 0 ->
  replace "Z" "+00:00" (stored_timestamp u) = isoformat u.
Proof.
  intros Ht. rewrite (stored_timestamp_utc u Ht), (isoformat_utc u Ht).
  unfold replace.
  rewrite (replace_from_skip "Z" "" "+00:00"); [reflexivity|].
  rewrite !all_chars_app, date_part_other, clock_part_other; reflexivity.
Qed.

Lemma skip_append (a b : string) : skip (String.length a) (a ++ b) = b.
Proof. induction a as [|c a IH]; [reflexivity|]. exact IH. Qed.

Lemma digit_char_eqb x c :
  is_digit c = false -> Ascii.eqb (digit_char x) c = false.
Proof.
  intros Hc. destruct (Ascii.eqb_spec (digit_char x) c) as [E|]; [|reflexivity].
  rewrite <- E, digit_char_is_digit in Hc. discriminate.
Qed.

Lemma clock_part_length u :
  String.length (clock_part u)
  = if microsecond u =? 0 then 8%nat else 15%nat.
Proof.
  unfold clock_part. rewrite !length_append, !zero_padded_length.
  destruct (microsecond u =? 0); [reflexivity|].
  cbn [String.length append]. now rewrite zero_padded_length.
Qed.

Lemma no_zone_other c :
  no_zone c = other_than "Z" c && other_than "+" c && other_than "-" c.
Proof.
  unfold no_zone, other_than.
  now destruct (Ascii.eqb c "Z"), (Ascii.eqb c "+"), (Ascii.eqb c "-").
Qed.

Lemma all_chars_and (p q : ascii -> bool) s :
  all_chars p s = true -> all_chars q s = true ->
  all_chars (fun c => p c && q c) s = true.
Proof.
  induction s as [|c s IH]; [reflexivity|]. simpl. intros H1 H2.
  apply andb_prop in H1, H2. destruct H1 as [-> H1], H2 as [-> H2].
  now rewrite IH.
Qed.

Lemma clock_part_no_zone u : all_chars no_zone (clock_part u) = true.
Proof.
  eapply all_chars_impl;
    [|apply (all_chars_and _ _ _
               (all_chars_and _ _ _
                  (clock_part_other "Z" u eq_refl eq_refl eq_refl)
                  (clock_part_other "+" u eq_refl eq_refl eq_refl))
               (clock_part_other "-" u eq_refl eq_refl eq_refl))].
  intros c H. now rewrite no_zone_other.
Qed.

(** The zone of a string starts where its first sign is. *)
Lemma tzinfo_pos_first a b n :
  all_chars no_zone a = true -> (String.length a < n)%nat ->
  tzinfo_pos (a ++ String "+" b) n = String.length a.
Proof.
  revert n. induction a as [|c a IH]; intros n Ha Hn.
  - destruct n; reflexivity.
  - simpl in Ha. apply andb_prop in Ha. destruct Ha as [Hc Ha].
    unfold no_zone in Hc. apply negb_true_iff in Hc.
    destruct n as [|[|n]]; cbn [String.length] in Hn; try lia.
    change ((String c a) ++ String "+" b) with (String c (a ++ String "+" b)).
    change (tzinfo_pos (String c (a ++ String "+" b)) (S (S n)))
      with (if Ascii.eqb c "Z" || Ascii.eqb c "+" || Ascii.eqb c "-"
            then 0%nat
            else S (tzinfo_pos (a ++ String "+" b) (S n))).
    rewrite Hc. cbn [String.length]. f_equal. apply IH; [exact Ha|lia].
Qed.

Lemma field_end_colon p n :
  1 < n -> field_end true (String ":" p) n = Field p (n - 1).
Proof.
  intros Hn. unfold field_end. cbn [peek next].
  destruct (Z.leb_spec (n - 1) 0); [lia|]. reflexivity.
Qed.

Lemma parse_clock_part u r :
  0 <= hour u < 24 -> 0 <= minute u < 60 -> 0 <= second u < 60 ->
  0 <= microsecond u < 1000000 ->
  parse_hh_mm_ss_ff (clock_part u ++ String "+" r)
                    (Z.of_nat (String.length (clock_part u)))
  = Some (hour u, minute u, second u, microsecond u, true).
Proof.
  intros Hh Hm Hs Hus. rewrite clock_part_length.
  unfold clock_part, parse_hh_mm_ss_ff.
  rewrite !append_assoc.
  rewrite read_zero_padded_exact by (simpl; lia).
  cbn [append peek]. cbn [Ascii.eqb Bool.eqb].
  destruct (Z.eqb_spec (microsecond u) 0) as [E|E].
  - rewrite field_end_colon by (simpl; lia).
    rewrite read_zero_padded_exact by (simpl; lia).
    cbn [append]. rewrite field_end_colon by (simpl; lia).
    rewrite read_zero_padded_exact by (simpl; lia).
    now rewrite E.
  - rewrite field_end_colon by (simpl; lia).
    rewrite read_zero_padded_exact by (simpl; lia).
    cbn [append]. rewrite field_end_colon by (simpl; lia).
    rewrite read_zero_padded_exact by (simpl; lia).
    cbn [append]. unfold field_end at 1. cbn [peek next].
    change (Z.of_nat 15 - 2 - 1 - 2 - 1 - 2 - 1 <=? 0) with false.
    cbn [Ascii.eqb Bool.eqb andb orb].
    unfold parse_fraction.
    change (Z.of_nat 15 - 2 - 1 - 2 - 1 - 2 - 1) with 6.
    cbn [Z.leb Z.compare Pos.compare Pos.compare_cont Z.to_nat Pos.to_nat
         Pos.iter_op Nat.add].
    rewrite read_zero_padded_exact by (simpl; lia).
    change (10 ^ (6 - 6)) with 1. rewrite Z.mul_1_r. reflexivity.
Qed.

Lemma parse_time_utc u :
  0 <= hour u < 24 -> 0 <= minute u < 60 -> 0 <= second u < 60 ->
  0 <= microsecond u < 1000000 ->
  parse_isoformat_time (clock_part u ++ "+00:00")
                       (String.length (clock_part u) + 6)
  = Some (hour u, minute u, second u, microsecond u, Some 0).
Proof.
  intros Hh Hm Hs Hus. unfold parse_isoformat_time.
  rewrite (tzinfo_pos_first (clock_part u) "00:00")
    by (apply clock_part_no_zone || lia).
  rewrite (parse_clock_part u "00:00") by assumption.
  rewrite skip_append.
  replace (String.length (clock_part u) =? String.length (clock_part u) + 6)%nat
    with false by (symmetry; apply Nat.eqb_neq; lia).
  cbn [peek next Ascii.eqb Bool.eqb].
  replace (Z.of_nat (String.length (clock_part u) + 6)
           - Z.of_nat (String.length (clock_part u)) - 1) with 5 by lia.
  reflexivity.
Qed.

(** Reading the rendering of a UTC value gives the value back. *)
Lemma fromisoformat_isoformat u :
  check_fields u = true -> tzinfo u = Some 0 ->
  fromisoformat (isoformat u) = Some u.
Proof.
  intros Hc Ht.
  pose proof (check_fields_elim u Hc) as (Hy & Hm & Hd & Hh & Hmi & Hs & Hus).
  pose proof (days_in_month_le (year u) (month u)) as Hdim.
  rewrite (isoformat_utc u Ht). unfold fromisoformat.
  assert (Hlen : String.length ((date_part u ++ "T" ++ clock_part u) ++ "+00:00")
                 = (17 + String.length (clock_part u))%nat).
  { unfold date_part. rewrite !length_append, !zero_padded_length.
    cbn [String.length]. lia. }
  rewrite Hlen.
  pose proof (clock_part_length u) as Hcl.
  replace (17 + String.length (clock_part u) <? 7)%nat with false
    by (symmetry; apply Nat.ltb_ge; lia).
  assert (Hsep : find_isoformat_datetime_separator
                   ((date_part u ++ "T" ++ clock_part u) ++ "+00:00")
                   (17 + String.length (clock_part u)) = Some 10%nat).
  { unfold find_isoformat_datetime_separator, date_part.
    replace (17 + String.length (clock_part u) =? 7)%nat with false
      by (symmetry; apply Nat.eqb_neq; lia).
    cbn [zero_padded append skip next peek].
    cbn [Ascii.eqb Bool.eqb]. now rewrite digit_char_eqb. }
  rewrite Hsep.
  assert (Hdate : parse_isoformat_date
                    ((date_part u ++ "T" ++ clock_part u) ++ "+00:00") 10
                  = Some (year u, month u, day u)).
  { unfold parse_isoformat_date, date_part. rewrite !append_assoc.
    rewrite read_zero_padded_exact by (simpl; lia).
    cbn [append peek next Ascii.eqb Bool.eqb].
    assert (HW : forall r, Ascii.eqb (peek (zero_padded 2 (month u) ++ r)) "W"
                           = false).
    { intros r. cbn [zero_padded append peek]. now apply digit_char_eqb. }
    rewrite HW.
    rewrite read_zero_padded_exact by (simpl; lia).
    cbn [append peek next Ascii.eqb Bool.eqb andb negb].
    rewrite read_zero_padded_exact by (simpl; lia). reflexivity. }
  rewrite Hdate.
  replace (10 <? 17 + String.length (clock_part u))%nat with true
    by (symmetry; apply Nat.ltb_lt; lia).
  assert (Hskip : skip 10 ((date_part u ++ "T" ++ clock_part u) ++ "+00:00")
                  = "T" ++ clock_part u ++ "+00:00").
  { rewrite !append_assoc.
    replace 10%nat with (String.length (date_part u))
      by (unfold date_part; rewrite !length_append, !zero_padded_length;
          reflexivity).
    apply skip_append. }
  rewrite Hskip. cbn [append peek].
  change (utf8_width "T") with 1%nat. cbn [skip next].
  replace (17 + String.length (clock_part u) - 10 - 1)%nat
    with (String.length (clock_part u) + 6)%nat by lia.
  rewrite parse_time_utc by assumption.
  destruct u; simpl in *. subst. now rewrite Hc.
Qed.

(** The bucket of a stored timestamp is its own date and hour. *)
Lemma hour_key_stored u :
  check_fields u = true -> tzinfo u = Some 0 ->
  hour_key (stored_timestamp u) = Some (strftime_hour u).
Proof.
  intros Hc Ht. unfold hour_key.
  now rewrite (replace_Z_stored u Ht), (fromisoformat_isoformat u Hc Ht).
Qed.

Lemma truncate_hour_stored u :
  tzinfo u = Some 0 ->
  truncate_hour (stored_timestamp u)
  = zero_padded 4 (year u) ++ "-" ++ zero_padded 2 (month u) ++ "-"
      ++ zero_padded 2 (day u) ++ " " ++ zero_padded 2 (hour u) ++ ":00".
Proof.
  intros Ht. rewrite (stored_timestamp_utc u Ht).
  unfold truncate_hour, date_part, clock_part.
  cbn [zero_padded append substring]. reflexivity.
Qed.

Lemma lstrip_zeros_dash a r :
  lstrip_zeros (a ++ "-" ++ r) = lstrip_zeros (a ++ "-") ++ r.
Proof.
  induction a as [|c a IH]; [reflexivity|].
  destruct (Ascii.eqb_spec c "0") as [->|Hc]; [exact IH|].
  assert (Hs : forall t, lstrip_zeros (String c t) = String c t).
  { intros t. destruct c as [[] [] [] [] [] [] [] []]; try reflexivity.
    now elim Hc. }
  cbn [append]. rewrite !Hs. cbn [append]. f_equal.
  symmetry. apply append_assoc.
Qed.

(** The year as [strftime] prints it is the year as [isoformat] writes it,
    less its leading zeros. *)
Lemma decimal_year y r :
  1 <= y <= 9999 ->
  lstrip_zeros (zero_padded 4 y ++ "-" ++ r) = decimal y ++ "-" ++ r.
Proof.
  intros Hy.
  assert (H : all_from
                (fun y => String.eqb (lstrip_zeros (zero_padded 4 y ++ "-"))
                                     (decimal y ++ "-"))
                1 (Z.to_nat 9999) = true)
    by (vm_compute; reflexivity).
  pose proof (all_from_spec _ _ _ H y) as E.
  specialize (E ltac:(lia)). apply String.eqb_eq in E.
  rewrite lstrip_zeros_dash, E. apply append_assoc.
Qed.

Lemma bucket_key_stored u :
  check_fields u = true -> tzinfo u = Some 0 ->
  bucket_key (stored_timestamp u) = strftime_hour u.
Proof.
  intros Hc Ht. unfold bucket_key. rewrite (truncate_hour_stored u Ht).
  apply check_fields_elim in Hc.
  unfold strftime_hour. apply decimal_year. lia.
Qed.

(** ** Timeline *)

Lemma written_hour_key s :
  written_timestamp s -> hour_key s = Some (bucket_key s).
Proof.
  intros (u & Hc & Ht & ->).
  change (replace "+00:00" "Z" (isoformat u)) with (stored_timestamp u).
  now rewrite (hour_key_stored u Hc Ht), (bucket_key_stored u Hc Ht).
Qed.

Lemma timeline_loop_grouped txs d :
  Forall (fun tx => written_timestamp (rec_timestamp tx)) txs ->
  timeline_loop txs d
  = Some (grouped default_bucket bucket_of bucket_step txs d).
Proof.
  intros H. revert d. induction H as [|tx txs Htx _ IH]; intros d.
  - reflexivity.
  - simpl. rewrite (written_hour_key _ Htx). apply IH.
Qed.

Lemma bucket_fold l :
  fold_left bucket_step l default_bucket
  = mkBucket (sum (amounts_of_type credit l)) (sum (amounts_of_type debit l))
             (len l).
Proof.
  induction l as [|tx l IH] using rev_ind; [reflexivity|].
  rewrite fold_left_app, IH. simpl. unfold bucket_step. simpl.
  rewrite !amounts_of_type_snoc, len_app_one.
  destruct (rec_type tx); simpl; now rewrite sum_snoc, app_nil_r.
Qed.

Lemma timeline_row_key entry : tl_timestamp (timeline_row_of entry) = fst entry.
Proof. now destruct entry. Qed.

Lemma string_ltb_of_distinct a b :
  String.ltb b a = false -> a <> b -> String.ltb a b = true.
Proof.
  rewrite string_ltb_false. unfold String.ltb. intros Hle Hne.
  destruct (String.compare a b) eqn:E; try congruence.
  apply String.compare_eq_iff in E. contradiction.
Qed.

Lemma StronglySorted_strict {A : Type} (key : A -> string) l :
  StronglySorted (asc key String.ltb) l -> NoDup (map key l) ->
  StronglySorted (fun a b => String.ltb (key a) (key b) = true) l.
Proof.
  induction 1 as [|x l Hl IH Hx]; intros Hnd; constructor;
    inversion Hnd as [|? ? Hnotin Hnd']; subst.
  - now apply IH.
  - rewrite Forall_forall in *. intros y Hy.
    apply string_ltb_of_distinct; [now apply Hx|].
    intros E. apply Hnotin. rewrite E. now apply in_map.
Qed.

Lemma StronglySorted_map {A B : Type} (g : A -> B) (R : B -> B -> Prop) l :
  StronglySorted (fun a b => R (g a) (g b)) l -> StronglySorted R (map g l).
Proof.
  induction 1 as [|x l Hl IH Hx]; simpl; constructor; [assumption|].
  rewrite Forall_forall in *. intros y Hy.
  apply in_map_iff in Hy. destruct Hy as (z & <- & Hz). now apply Hx.
Qed.

Lemma get_timeline_grouped f :
  Forall (fun tx => written_timestamp (rec_timestamp tx)) (read_transactions f) ->
  get_timeline f
  = Some (map timeline_row_of
              (sorted fst String.ltb false
                      (grouped default_bucket bucket_of bucket_step
                               (read_transactions f) []))).
Proof.
  intros Hw. unfold get_timeline.
  destruct (read_transactions f) as [|tx txs]; [reflexivity|].
  now rewrite (timeline_loop_grouped _ [] Hw).
Qed.

(** C6.  On a log whose timestamps the receiver wrote, the timeline query
    puts each record in the bucket named by the date and hour of its stored
    timestamp, read off the timestamp as it stands, the year without its
    leading zeros: [YYYY-MM-DD HH:00] for a timestamp that does not begin
    with a zero, that is from the year 1000 on.  A bucket holds the rounded
    sum of its credits, the rounded sum of its debits and the number of its
    records; the buckets come in ascending order of their keys, as strings;
    the empty log gives the empty list. *)
Theorem timeline_buckets (f : file) :
  Forall (fun tx => written_timestamp (rec_timestamp tx)) (read_transactions f) ->
  exists out,
    get_timeline f = Some out
    /\ StronglySorted
         (fun a b => String.ltb (tl_timestamp a) (tl_timestamp b) = true) out
    /\ (forall k, In k (map tl_timestamp out)
                  <-> exists tx, In tx (read_transactions f)
                                 /\ bucket_key (rec_timestamp tx) = k)
    /\ (forall tx, In tx (read_transactions f) ->
          (forall rest, rec_timestamp tx <> String "0" rest) ->
          bucket_key (rec_timestamp tx) = truncate_hour (rec_timestamp tx))
    /\ (forall row, In row out ->
          let mine := in_hour (tl_timestamp row) (read_transactions f) in
          tl_credits row = round2 (sum (amounts_of_type credit mine))
          /\ tl_debits row = round2 (sum (amounts_of_type debit mine))
          /\ tl_count row = len mine)
    /\ (read_transactions f = [] -> out = []).
Proof.
  intros Hw.
  set (txs := read_transactions f) in *.
  set (timeline := grouped default_bucket bucket_of bucket_step txs []).
  exists (map timeline_row_of (sorted fst String.ltb false timeline)).
  assert (Hperm : Permutation (sorted fst String.ltb false timeline) timeline)
    by apply sorted_perm.
  split; [|split; [|split; [|split; [|split]]]].
  - apply (get_timeline_grouped f Hw).
  - apply StronglySorted_map.
    apply StronglySorted_impl
      with (R := fun a b => String.ltb (fst a) (fst b) = true).
    + intros a b. now rewrite !timeline_row_key.
    + apply StronglySorted_strict.
      * apply sorted_asc_StronglySorted;
          [apply string_ltb_asym | apply string_ltb_negtrans].
      * eapply Permutation_NoDup;
          [symmetry; apply Permutation_map; exact Hperm
          | apply grouped_NoDup].
  - intros k. rewrite map_map.
    rewrite (map_ext _ fst timeline_row_key).
    assert (Hk : In k (map fst (sorted fst String.ltb false timeline))
                 <-> In k (map fst timeline)).
    { split; apply Permutation_in; apply Permutation_map;
        [exact Hperm | symmetry; exact Hperm]. }
    rewrite Hk. unfold timeline. rewrite grouped_keys, in_map_iff.
    split; intros (tx & H1 & H2); exists tx; tauto.
  - intros tx _ Hz. unfold bucket_key, truncate_hour.
    destruct (rec_timestamp tx) as [|c rest]; [reflexivity|].
    destruct c as [[] [] [] [] [] [] [] []]; try reflexivity.
    now elim (Hz rest).
  - intros row Hin. apply in_map_iff in Hin.
    destruct Hin as ([k data] & <- & Hin).
    apply (Permutation_in _ Hperm) in Hin.
    apply grouped_entry in Hin. destruct Hin as (-> & _).
    cbv zeta. simpl.
    change (with_key bucket_of k txs) with (in_hour k txs).
    rewrite bucket_fold. simpl. auto.
  - intros E. unfold timeline. rewrite E. reflexivity.
Qed.

(** ** What the handler writes *)

Section HandlerFacts.
Variable local_utcoffset : datetime -> Z.
Variable lax_float : json -> option float.
Variable datetime_of_json : json -> option datetime.

Local Abbreviation post :=
  (post_transactions local_utcoffset lax_float datetime_of_json).

Lemma recieve_accepted tx f i f' :
  recieve_transaction local_utcoffset tx f = (Accepted i, f') ->
  exists utc,
    astimezone_utc local_utcoffset (Transaction.timestamp tx) = Some utc
    /\ f' = append_line f
              (mkRecord (Transaction.id tx) (Transaction.account tx)
                        (Transaction.amount tx) (stored_timestamp utc)
                        (Transaction.type tx)).
Proof.
  unfold recieve_transaction.
  destruct (astimezone_utc local_utcoffset (Transaction.timestamp tx))
    as [utc|]; [|discriminate].
  intros E. injection E as _ <-. now exists utc.
Qed.

Lemma post_accepted body f i f' :
  post body f = (Accepted i, f') ->
  exists tx,
    validate lax_float datetime_of_json body = Some tx
    /\ recieve_transaction local_utcoffset tx f = (Accepted i, f').
Proof.
  unfold post_transactions.
  destruct (validate lax_float datetime_of_json body) as [tx|];
    [|discriminate].
  intros E. now exists tx.
Qed.

(** Every timestamp in the log of a receiver is one it wrote: the property
    holds of no log at all, and an accepted post keeps it. *)
Lemma accepted_keeps_written body f i f' :
  post body f = (Accepted i, f') ->
  Forall (fun tx => written_timestamp (rec_timestamp tx)) (read_transactions f) ->
  Forall (fun tx => written_timestamp (rec_timestamp tx)) (read_transactions f').
Proof.
  intros H Hw. apply post_accepted in H. destruct H as (tx & _ & H).
  apply recieve_accepted in H. destruct H as (utc & Hutc & ->).
  rewrite read_append_line. apply Forall_app. split; [assumption|].
  constructor; [|constructor]. simpl.
  apply astimezone_utc_spec in Hutc. destruct Hutc as (Hc & Ht & _).
  now exists utc.
Qed.

(** A validated model holds what the body held. *)
Lemma validate_fields body tx :
  validate lax_float datetime_of_json body = Some tx ->
  exists d,
    body = JObject d
    /\ lookup "id" d = Some (JString (Transaction.id tx))
    /\ lookup "account" d = Some (JString (Transaction.account tx))
    /\ validate_float lax_float (lookup "amount" d)
       = Some (Transaction.amount tx)
    /\ validate_datetime datetime_of_json (lookup "timestamp" d)
       = Some (Transaction.timestamp tx)
    /\ validate_type (lookup "type" d) = Some (Transaction.type tx).
Proof.
  unfold validate. destruct body as [| | | | | |d]; try discriminate.
  destruct (lookup "id" d) as [[| | | |i| |]|] eqn:Ei; try discriminate.
  destruct (lookup "account" d) as [[| | | |a| |]|] eqn:Ea; try discriminate.
  simpl.
  destruct (validate_float lax_float (lookup "amount" d)) as [x|] eqn:Ex;
    [|discriminate].
  destruct (validate_datetime datetime_of_json (lookup "timestamp" d))
    as [ts|] eqn:Et; [|discriminate].
  destruct (validate_type (lookup "type" d)) as [ty|] eqn:Ey; [|discriminate].
  intros E. injection E as <-. exists d. simpl. repeat split; assumption.
Qed.

End HandlerFacts.

Lemma timeline_buckets_witness :
  exists out,
    get_timeline
      (Some [Entry (mkRecord "t1" "A123" 100 "2024-05-01T10:15:00Z" credit);
             Entry (mkRecord "t2" "B456" 40 "2024-05-01T09:59:59.250000Z" debit);
             Entry (mkRecord "t3" "A123" 7.5 "2024-05-01T10:45:00Z" credit)])
    = Some out
    /\ map tl_timestamp out = ["2024-05-01 09:00"; "2024-05-01 10:00"].
Proof.
  destruct (timeline_buckets
              (Some [Entry (mkRecord "t1" "A123" 100 "2024-05-01T10:15:00Z" credit);
                     Entry (mkRecord "t2" "B456" 40 "2024-05-01T09:59:59.250000Z" debit);
                     Entry (mkRecord "t3" "A123" 7.5 "2024-05-01T10:45:00Z" credit)]))
    as (out & Hout & _).
  - simpl. repeat constructor; simpl.
    + exists (mkDatetime 2024 5 1 10 15 0 0 (Some 0)). repeat split.
    + exists (mkDatetime 2024 5 1 9 59 59 250000 (Some 0)). repeat split.
    + exists (mkDatetime 2024 5 1 10 45 0 0 (Some 0)). repeat split.
  - exists out. split; [exact Hout|].
    vm_compute in Hout. injection Hout as <-. reflexivity.
Defined.

(** The key of a record of the year 999, which the receiver stores as
    [0999-...], is not on the pattern [YYYY-MM-DD HH:00]: it loses the zero,
    and its bucket comes after the one of 2024. *)
Lemma timeline_key_drops_zeros :
  written_timestamp "0999-05-01T10:15:00Z"
  /\ written_timestamp "2024-05-01T10:15:00Z"
  /\ truncate_hour "0999-05-01T10:15:00Z" = "0999-05-01 10:00"
  /\ get_timeline
       (Some [Entry (mkRecord "t1" "A123" 100 "0999-05-01T10:15:00Z" credit);
              Entry (mkRecord "t2" "B456" 40 "2024-05-01T10:15:00Z" debit)])
     = Some [mkTimelineRow "2024-05-01 10:00" (Int 0) (Float 40) 1;
             mkTimelineRow "999-05-01 10:00" (Float 100) (Int 0) 1].
Proof.
  split; [|split; [|split]].
  - exists (mkDatetime 999 5 1 10 15 0 0 (Some 0)). repeat split.
  - exists (mkDatetime 2024 5 1 10 15 0 0 (Some 0)). repeat split.
  - reflexivity.
  - vm_compute. reflexivity.
Qed.


(** A timestamp whose UTC rendering would fall before year 1 validates, and
    the handler raises on it: nothing is stored. *)
Lemma early_timestamp_raises :
  validate Host.lax_float Host.datetime_of_json
           (Host.body "t0" "A123" 10 "0001-01-01T00:30:00+01:00" "credit")
  = Some (Transaction.mk "t0" "A123" 10
            (mkDatetime 1 1 1 0 30 0 0 (Some 3600000000)) credit)
  /\ Host.post (Host.body "t0" "A123" 10 "0001-01-01T00:30:00+01:00" "credit")
               None
     = (ServerError, None).
Proof. vm_compute. split; reflexivity. Qed.

(** * Further properties of the receiver *)

(** ** Counts agree across the queries *)

Lemma count_by_type txs :
  len (filter (fun tx => tx_type_eqb (rec_type tx) credit) txs)
  + len (filter (fun tx => tx_type_eqb (rec_type tx) debit) txs)
  = len txs.
Proof.
  unfold len. induction txs as [|tx txs IH]; [reflexivity|].
  cbn [filter]. destruct (rec_type tx); cbn [tx_type_eqb List.length];
    rewrite !Nat2Z.inj_succ; lia.
Qed.

(** X1.  The two counts of the type distribution add up to the
    total_transactions of the summary: every stored record is a credit or a
    debit, and is counted once. *)
Theorem type_distribution_partitions (f : file) :
  dist_credit (get_type_distribution f) + dist_debit (get_type_distribution f)
  = total_transactions (get_summary f).
Proof.
  destruct (summary_fields f) as (Hn & _). rewrite Hn.
  unfold get_type_distribution. simpl. apply count_by_type.
Qed.

Lemma total_app l1 l2 : total (l1 ++ l2) = total l1 + total l2.
Proof.
  unfold total. induction l1 as [|x l1 IH]; simpl; [reflexivity|].
  rewrite IH. lia.
Qed.

Lemma total_perm l1 l2 : Permutation l1 l2 -> total l1 = total l2.
Proof.
  unfold total. induction 1; simpl; lia.
Qed.

Section Counting.
Context {V : Type}.
Variable dflt : V.
Variable key : record -> string.
Variable step : V -> record -> V.
Variable size : V -> Z.
Hypothesis size_dflt : size dflt = 0.
Hypothesis size_step : forall v tx, size (step v tx) = size v + 1.

Lemma total_update k tx (d : dict V) :
  total (map (fun e => size (snd e)) (update dflt k (fun v => step v tx) d))
  = total (map (fun e => size (snd e)) d) + 1.
Proof.
  induction d as [|[k' v] d IH]; simpl.
  - rewrite size_step, size_dflt. reflexivity.
  - destruct (String.eqb k k'); simpl.
    + rewrite size_step. lia.
    + rewrite IH. lia.
Qed.

(** After the pass, the sizes of the entries add up to the number of
    records. *)
Lemma total_grouped txs :
  total (map (fun e => size (snd e)) (grouped dflt key step txs []))
  = len txs.
Proof.
  induction txs as [|tx txs IH] using rev_ind; [reflexivity|].
  rewrite grouped_snoc, total_update, IH, len_app_one. reflexivity.
Qed.
End Counting.

Lemma account_step_count v tx : count (account_step v tx) = count v + 1.
Proof. unfold account_step. now destruct (rec_type tx). Qed.

Lemma bucket_step_count v tx :
  bucket_count (bucket_step v tx) = bucket_count v + 1.
Proof. unfold bucket_step. now destruct (rec_type tx). Qed.

(** X2.  The counts of the by-account rows add up to the
    total_transactions of the summary of the same log. *)
Theorem by_account_counts_total (f : file) :
  total (map row_count (get_by_account f))
  = total_transactions (get_summary f).
Proof.
  destruct (summary_fields f) as (Hn & _). rewrite Hn.
  rewrite get_by_account_rows.
  rewrite (total_perm _ _ (Permutation_map row_count (sorted_perm _ _ _ _))).
  rewrite map_map.
  rewrite (map_ext _ (fun e => count (snd e))) by (now intros [a d]).
  apply (total_grouped default_data rec_account account_step count);
    [reflexivity | apply account_step_count].
Qed.

Lemma NoDup_same_length (l1 l2 : list string) :
  NoDup l1 -> NoDup l2 -> (forall x, In x l1 <-> In x l2) ->
  List.length l1 = List.length l2.
Proof.
  intros H1 H2 H. apply Permutation_length.
  now apply NoDup_Permutation.
Qed.

Lemma by_account_NoDup f : NoDup (map row_account (get_by_account f)).
Proof.
  eapply Permutation_NoDup;
    [symmetry; apply by_account_accounts | apply grouped_NoDup].
Qed.

Lemma by_account_In f a :
  In a (map row_account (get_by_account f))
  <-> In a (map rec_account (read_transactions f)).
Proof.
  rewrite <- (grouped_keys default_data rec_account account_step).
  split; apply Permutation_in;
    [apply by_account_accounts | symmetry; apply by_account_accounts].
Qed.

(** X3.  The by-account query returns as many rows as the summary counts
    unique accounts, and the summary never counts more accounts than
    transactions. *)
Theorem by_account_rows_unique_accounts (f : file) :
  len (get_by_account f) = unique_accounts (get_summary f)
  /\ unique_accounts (get_summary f) <= total_transactions (get_summary f).
Proof.
  assert (Hu : unique_accounts (get_summary f)
               = len (account_set (read_transactions f))).
  { unfold get_summary. now destruct (read_transactions f). }
  destruct (summary_fields f) as (Hn & _).
  pose proof (by_account_NoDup f) as Hnd.
  pose proof (by_account_In f) as Hin.
  rewrite Hu, Hn. split.
  - unfold len. f_equal.
    rewrite <- (length_map row_account (get_by_account f)).
    apply NoDup_same_length; [assumption | apply NoDup_nodup |].
    intros a. unfold account_set. rewrite nodup_In. apply Hin.
  - unfold len, account_set.
    pose proof (NoDup_incl_length
                  (NoDup_nodup string_dec (map rec_account (read_transactions f)))
                  (fun a Ha => proj1 (nodup_In string_dec _ a) Ha)) as Hle.
    rewrite length_map in Hle. lia.
Qed.

(** X4.  On a log whose timestamps the receiver wrote, the counts of the
    timeline buckets add up to the total_transactions of the summary. *)
Theorem timeline_counts_total (f : file) :
  Forall (fun tx => written_timestamp (rec_timestamp tx)) (read_transactions f) ->
  exists out,
    get_timeline f = Some out
    /\ total (map tl_count out) = total_transactions (get_summary f).
Proof.
  intros Hw. eexists. split; [apply (get_timeline_grouped f Hw)|].
  destruct (summary_fields f) as (Hn & _). rewrite Hn.
  rewrite map_map.
  rewrite (map_ext _ (fun e => bucket_count (snd e))) by (now intros [a d]).
  rewrite (total_perm _ _ (Permutation_map _ (sorted_perm _ _ _ _))).
  apply (total_grouped default_bucket bucket_of bucket_step bucket_count);
    [reflexivity | apply bucket_step_count].
Qed.

(** ** What a request can do to the log *)

Section EndpointFacts.
Variable local_utcoffset : datetime -> Z.
Variable lax_float : json -> option float.
Variable datetime_of_json : json -> option datetime.

Local Abbreviation post :=
  (post_transactions local_utcoffset lax_float datetime_of_json).

(** X5.  The log is append-only.  Whatever the body and the answer, the
    records that were in the log are still there, in the same order; an
    accepted request adds exactly one record after them, whose id is the id
    the answer echoes and the id the body carried; any other answer leaves
    the file as it was. *)
Theorem log_is_append_only (body : json) (f : file) :
  exists suffix,
    read_transactions (snd (post body f)) = (read_transactions f ++ suffix)%list
    /\ match fst (post body f) with
       | Accepted i =>
           exists d r, body = JObject d /\ suffix = [r] /\ rec_id r = i
                       /\ lookup "id" d = Some (JString i)
       | _ => suffix = [] /\ snd (post body f) = f
       end.
Proof.
  unfold post_transactions.
  destruct (validate lax_float datetime_of_json body) as [tx|] eqn:Ev.
  - unfold recieve_transaction.
    destruct (astimezone_utc local_utcoffset (Transaction.timestamp tx)) as [utc|].
    + eexists. split; [apply read_append_line|]. simpl.
      apply validate_fields in Ev.
      destruct Ev as (d & -> & Hid & _).
      eexists. eexists. repeat split. exact Hid.
    + exists []. simpl. now rewrite app_nil_r.
  - exists []. simpl. now rewrite app_nil_r.
Qed.

(** Closes a goal [validate _ _ _ = None] from a hypothesis that one field
    does not validate. *)
Ltac reject_body :=
  unfold validate;
  repeat match goal with
         | |- context [match ?x with Some _ => _ | None => _ end] =>
             destruct x eqn:?; try congruence; try reflexivity
         end.

Lemma validate_none_rejected body f :
  validate lax_float datetime_of_json body = None ->
  post body f = (ValidationError, f).
Proof. unfold post_transactions. now intros ->. Qed.

(** X6.  A body that is not a JSON object, a body that lacks one of the five
    fields, and a body whose id or account is not a string are each rejected
    with a validation error, and the file is left as it was. *)
Theorem malformed_body_rejected (f : file) :
  (forall body, (forall d, body <> JObject d) ->
                post body f = (ValidationError, f))
  /\ (forall d k, In k required_fields -> lookup k d = None ->
                  post (JObject d) f = (ValidationError, f))
  /\ (forall d k j, k = "id" \/ k = "account" -> lookup k d = Some j ->
                    (forall s, j <> JString s) ->
                    post (JObject d) f = (ValidationError, f)).
Proof.
  split; [|split].
  - intros body Hb. apply validate_none_rejected.
    destruct body; try reflexivity. now elim (Hb l).
  - intros d k Hk Hnone. apply validate_none_rejected.
    assert (Hv : validate_str (lookup k d) = None
                 /\ validate_float lax_float (lookup k d) = None
                 /\ validate_datetime datetime_of_json (lookup k d) = None
                 /\ validate_type (lookup k d) = None)
      by (rewrite Hnone; repeat split).
    destruct Hv as (H1 & H2 & H3 & H4). simpl in Hk.
    destruct Hk as [<-|[<-|[<-|[<-|[<-|[]]]]]]; reject_body.
  - intros d k j Hk Hj Hs. apply validate_none_rejected.
    assert (Hv : validate_str (lookup k d) = None).
    { rewrite Hj. destruct j; try reflexivity. now elim (Hs s). }
    destruct Hk as [->| ->]; reject_body.
Qed.
End EndpointFacts.

(** ** Recent *)

Lemma at_time_insert_desc t x l :
  at_time t (insert_desc rec_timestamp String.ltb x l)
  = at_time t (x :: l).
Proof.
  unfold at_time. induction l as [|y l IH]; [reflexivity|].
  cbn [insert_desc].
  destruct (String.ltb (rec_timestamp x) (rec_timestamp y)) eqn:E;
    [|reflexivity].
  cbn [filter]. rewrite IH. cbn [filter].
  destruct (String.eqb_spec (rec_timestamp x) t) as [Ex|Ex];
    [|reflexivity].
  destruct (String.eqb_spec (rec_timestamp y) t) as [Ey|Ey];
    [|reflexivity].
  rewrite Ex, Ey, string_ltb_irrefl in E. discriminate.
Qed.

Lemma at_time_sorted t l :
  at_time t (sorted rec_timestamp String.ltb true l) = at_time t l.
Proof.
  unfold sorted. induction l as [|x l IH]; [reflexivity|].
  cbn [fold_right]. rewrite at_time_insert_desc.
  unfold at_time in *. cbn [filter]. now rewrite IH.
Qed.

(** X7.  The recent query is stable: under a limit that covers the log, the
    records that share a timestamp come out in the order in which they were
    appended. *)
Theorem recent_is_stable (f : file) (limit : Z) (t : string) :
  len (read_transactions f) <= limit ->
  at_time t (get_recent (Some limit) f) = at_time t (read_transactions f).
Proof.
  intros Hl. unfold get_recent, slice_to.
  assert (E : (limit <? 0) = false) by (unfold len in Hl; lia).
  rewrite E, firstn_all2.
  - apply at_time_sorted.
  - rewrite sorted_length. unfold len in Hl. lia.
Qed.

(** X8.  The bounds of the limit.  A limit that covers the log returns all
    of it, reordered; a negative limit that reaches back past the first
    record returns nothing; and under any limit, also absent, the query
    returns records of the log only. *)
Theorem recent_limit_bounds (f : file) :
  (forall limit, len (read_transactions f) <= limit ->
                 Permutation (get_recent (Some limit) f) (read_transactions f))
  /\ (forall limit, limit <= - len (read_transactions f) ->
                    get_recent (Some limit) f = [])
  /\ (forall limit r, In r (get_recent limit f) -> In r (read_transactions f)).
Proof.
  split; [|split].
  - intros limit Hl. unfold get_recent, slice_to.
    assert (E : (limit <? 0) = false) by (unfold len in Hl; lia).
    rewrite E, firstn_all2; [apply sorted_perm|].
    rewrite sorted_length. unfold len in Hl. lia.
  - intros limit Hl. unfold get_recent, slice_to.
    destruct (Z.ltb_spec limit 0) as [_|Hn].
    + replace (Z.to_nat _) with 0%nat; [reflexivity|].
      unfold len in *. rewrite sorted_length. lia.
    + replace (Z.to_nat limit) with 0%nat; [reflexivity|].
      unfold len in Hl. lia.
  - intros limit r. unfold get_recent, slice_to. intros H.
    apply firstn_In in H. now apply sorted_In in H.
Qed.

(** ** By account *)

Lemma signed_sum_credits l :
  amounts_of_type debit l = [] ->
  signed_sum l = sum (amounts_of_type credit l).
Proof.
  induction l as [|tx l IH] using rev_ind; [reflexivity|].
  rewrite !amounts_of_type_snoc, signed_sum_snoc.
  destruct (rec_type tx); simpl.
  - intros H. rewrite app_nil_r in H. rewrite sum_snoc, (IH H). reflexivity.
  - intros H. now destruct (amounts_of_type debit l).
Qed.

(** X9.  An account without debit records has a balance equal to its
    credits, as returned: the two accumulators received the same additions. *)
Theorem credit_only_balance (f : file) (row : account_row) :
  In row (get_by_account f) ->
  amounts_of_type debit (of_account (row_account row) (read_transactions f)) = [] ->
  row_balance row = row_credits row /\ row_debits row = Int 0.
Proof.
  intros Hin Hd.
  destruct (by_account_row f row Hin) as (_ & Hc & Hdb & Hb & _).
  rewrite Hb, Hc, Hdb, Hd, (signed_sum_credits _ Hd). split; reflexivity.
Qed.

(** * The calendar is ordered *)

Lemma days_before_year_succ y :
  days_before_year (y + 1)
  = days_before_year y + 365 + (if is_leap y then 1 else 0).
Proof.
  unfold days_before_year, is_leap.
  replace (y + 1 - 1) with y by lia.
  destruct (Z.eqb_spec (y mod 4) 0), (Z.eqb_spec (y mod 100) 0),
    (Z.eqb_spec (y mod 400) 0); cbn [andb orb negb]; dlia.
Qed.

Lemma days_before_year_mono y y' :
  y < y' ->
  days_before_year y + 365 + (if is_leap y then 1 else 0)
  <= days_before_year y'.
Proof.
  intros H. rewrite <- days_before_year_succ.
  destruct (Z.eq_dec y' (y + 1)) as [->|Hne]; [lia|].
  unfold days_before_year. dlia.
Qed.

Lemma month_cases m :
  1 <= m <= 12 ->
  m = 1 \/ m = 2 \/ m = 3 \/ m = 4 \/ m = 5 \/ m = 6 \/ m = 7 \/ m = 8
  \/ m = 9 \/ m = 10 \/ m = 11 \/ m = 12.
Proof. lia. Qed.

(** Evaluates the month tables at a given month. *)
Ltac month_tables :=
  cbv [DAYS_BEFORE_MONTH DAYS_IN_MONTH Z.eqb Z.ltb Z.compare Pos.compare
       Pos.compare_cont Pos.eqb andb].

Lemma days_before_month_succ y m :
  1 <= m <= 11 ->
  days_before_month y (m + 1) = days_before_month y m + days_in_month y m.
Proof.
  intros Hm. unfold days_before_month, days_in_month.
  assert (C : 1 <= m <= 12) by lia. apply month_cases in C.
  destruct (is_leap y);
    repeat (destruct C as [->|C]; [reflexivity|]); lia.
Qed.

Lemma days_before_month_mono y m m' :
  1 <= m -> m < m' -> m' <= 12 ->
  days_before_month y m + days_in_month y m <= days_before_month y m'.
Proof.
  intros H1 H2 H3.
  assert (C : 1 <= m <= 12) by lia. apply month_cases in C.
  assert (C' : 1 <= m' <= 12) by lia. apply month_cases in C'.
  unfold days_before_month, days_in_month.
  destruct (is_leap y);
    repeat (destruct C as [->|C]); try subst m;
    repeat (destruct C' as [->|C']); try subst m';
    try lia; month_tables; lia.
Qed.

(** The day of the year lies within the year. *)
Lemma day_of_year_bounds y m d :
  1 <= m <= 12 -> 1 <= d <= days_in_month y m ->
  1 <= days_before_month y m + d <= 365 + (if is_leap y then 1 else 0).
Proof.
  intros Hm Hd. apply month_cases in Hm. revert Hd.
  unfold days_before_month, days_in_month.
  destruct (is_leap y);
    repeat (destruct Hm as [->|Hm]); try subst m; month_tables; lia.
Qed.

Lemma lex_eq c1 c2 : lex c1 c2 = Eq <-> c1 = Eq /\ c2 = Eq.
Proof. destruct c1, c2; simpl; split; intros; intuition congruence. Qed.

(** [ymd2ord] orders the dates as the triples (year, month, day). *)
Lemma ymd2ord_compare y m d y' m' d' :
  valid_date y m d -> valid_date y' m' d' ->
  (ymd2ord y m d ?= ymd2ord y' m' d')
  = lex (y ?= y') (lex (m ?= m') (d ?= d')).
Proof.
  intros (Hy & Hm & Hd) (Hy' & Hm' & Hd').
  pose proof (day_of_year_bounds y m d Hm Hd) as B.
  pose proof (day_of_year_bounds y' m' d' Hm' Hd') as B'.
  unfold ymd2ord.
  destruct (Z.compare_spec y y') as [->|Hlt|Hgt]; simpl.
  - destruct (Z.compare_spec m m') as [->|Hlt|Hgt]; simpl.
    + destruct (Z.compare_spec d d'); [apply Z.compare_eq_iff
                                      | apply Z.compare_lt_iff
                                      | apply Z.compare_gt_iff]; lia.
    + apply Z.compare_lt_iff.
      pose proof (days_before_month_mono y' m m'). lia.
    + apply Z.compare_gt_iff.
      pose proof (days_before_month_mono y' m' m). lia.
  - apply Z.compare_lt_iff.
    pose proof (days_before_year_mono y y' Hlt). lia.
  - apply Z.compare_gt_iff.
    pose proof (days_before_year_mono y' y Hgt). lia.
Qed.

Lemma ymd2ord_inj y m d y' m' d' :
  valid_date y m d -> valid_date y' m' d' ->
  ymd2ord y m d = ymd2ord y' m' d' -> y = y' /\ m = m' /\ d = d'.
Proof.
  intros H H' E. apply Z.compare_eq_iff in E.
  rewrite (ymd2ord_compare _ _ _ _ _ _ H H') in E.
  apply lex_eq in E. destruct E as (E1 & E).
  apply lex_eq in E. destruct E as (E2 & E3).
  apply Z.compare_eq_iff in E1, E2, E3. auto.
Qed.

Lemma ymd2ord_bounds y m d :
  valid_date y m d -> 1 <= ymd2ord y m d <= MAXORDINAL.
Proof.
  intros (Hy & Hm & Hd).
  pose proof (day_of_year_bounds y m d Hm Hd) as B.
  unfold ymd2ord, MAXORDINAL. split.
  - unfold days_before_year. dlia.
  - destruct (Z.eq_dec y 9999) as [->|Hne].
    + change (is_leap 9999) with false in B.
      change (days_before_year 9999) with 3651694. lia.
    + pose proof (days_before_year_mono y 9999).
      change (days_before_year 9999) with 3651694 in *. lia.
Qed.

(** [ord2ymd] after [ymd2ord] gives the date back. *)
Lemma ord2ymd_ymd2ord y m d :
  valid_date y m d -> ord2ymd (ymd2ord y m d) = (y, m, d).
Proof.
  intros H. pose proof (ymd2ord_bounds y m d H) as B.
  pose proof (ord2ymd_valid (ymd2ord y m d) B) as V.
  destruct (ord2ymd (ymd2ord y m d)) as [[y' m'] d'].
  destruct V as (Vy & Vm & Vd & E).
  apply ymd2ord_inj in E; [|repeat split; lia|assumption].
  destruct E as (-> & -> & ->). reflexivity.
Qed.

(** * Timestamps in UTC *)

Lemma check_fields_date d :
  check_fields d = true -> valid_date (year d) (month d) (day d).
Proof.
  intros H. apply check_fields_elim in H. unfold valid_date. tauto.
Qed.

(** Subtracting nothing changes only the zone. *)
Lemma sub_delta_zero d tz :
  check_fields d = true ->
  sub_delta d 0 tz
  = Some (mkDatetime (year d) (month d) (day d) (hour d) (minute d)
                     (second d) (microsecond d) tz).
Proof.
  intros Hc. pose proof (check_fields_date d Hc) as Hv.
  pose proof (ymd2ord_bounds _ _ _ Hv) as Hb.
  pose proof (ord2ymd_ymd2ord _ _ _ Hv) as Ho.
  apply check_fields_elim in Hc.
  destruct Hc as (_ & _ & _ & Hh & Hmi & Hs & Hus).
  unfold sub_delta, local_us, MAXORDINAL, DAY_US in *.
  set (n := ymd2ord (year d) (month d) (day d)) in *.
  replace (86400 * 1000000) with 86400000000 by reflexivity.
  set (t := ((n * 24 + hour d) * 60 + minute d) * 60 * 1000000
            + second d * 1000000 + microsecond d - 0).
  assert (Ed : t / 86400000000 = n) by (unfold t; dlia).
  assert (Er : t mod 86400000000
               = ((hour d * 60 + minute d) * 60 + second d) * 1000000
                 + microsecond d) by (unfold t; dlia).
  rewrite Ed, Er, Ho.
  replace ((0 <? n) && (n <=? 3652059)) with true
    by (symmetry; apply andb_true_intro; split; lia).
  do 2 f_equal; dlia.
Qed.

(** A value in UTC is its own conversion to UTC. *)
Lemma astimezone_utc_of_utc loc d :
  check_fields d = true -> tzinfo d = Some 0 -> astimezone_utc loc d = Some d.
Proof.
  intros Hc Ht. unfold astimezone_utc. rewrite Ht.
  rewrite (sub_delta_zero d (Some 0) Hc).
  assert (E : mkDatetime (year d) (month d) (day d) (hour d) (minute d)
                         (second d) (microsecond d) (Some 0) = d)
    by (destruct d; simpl in *; now subst).
  rewrite E. rewrite (sub_delta_zero d (Some 0) Hc). now rewrite E.
Qed.

(** X10.  A transaction whose timestamp is already in UTC is always
    accepted, and stored with that timestamp's own date and clock fields:
    the conversion to UTC is then the identity. *)
Theorem utc_timestamp_stored_unchanged loc (tx : Transaction.t) (f : file) :
  check_fields (Transaction.timestamp tx) = true ->
  tzinfo (Transaction.timestamp tx) = Some 0 ->
  recieve_transaction loc tx f
  = (Accepted (Transaction.id tx),
     append_line f
       (mkRecord (Transaction.id tx) (Transaction.account tx)
                 (Transaction.amount tx)
                 ((date_part (Transaction.timestamp tx) ++ "T"
                     ++ clock_part (Transaction.timestamp tx)) ++ "Z")
                 (Transaction.type tx))).
Proof.
  intros Hc Ht. unfold recieve_transaction.
  rewrite (astimezone_utc_of_utc loc _ Hc Ht).
  now rewrite (stored_timestamp_utc _ Ht).
Qed.

(** ** The order of stored timestamps *)

Lemma digit_char_compare x y :
  0 <= x <= 9 -> 0 <= y <= 9 ->
  Ascii.compare (digit_char x) (digit_char y) = (x ?= y).
Proof.
  intros Hx Hy.
  assert (Cx : x = 0 \/ x = 1 \/ x = 2 \/ x = 3 \/ x = 4 \/ x = 5 \/ x = 6
               \/ x = 7 \/ x = 8 \/ x = 9) by lia.
  assert (Cy : y = 0 \/ y = 1 \/ y = 2 \/ y = 3 \/ y = 4 \/ y = 5 \/ y = 6
               \/ y = 7 \/ y = 8 \/ y = 9) by lia.
  repeat (destruct Cx as [->|Cx]); try subst x;
    repeat (destruct Cy as [->|Cy]); try subst y; reflexivity.
Qed.

Lemma compare_lex_digits p a b ra rb :
  0 < p -> 0 <= ra < p -> 0 <= rb < p ->
  (a * p + ra ?= b * p + rb) = lex (a ?= b) (ra ?= rb).
Proof.
  intros Hp Ha Hb.
  destruct (Z.compare_spec a b) as [->|H|H]; simpl.
  - destruct (Z.compare_spec ra rb);
      [apply Z.compare_eq_iff | apply Z.compare_lt_iff | apply Z.compare_gt_iff];
      lia.
  - apply Z.compare_lt_iff. nia.
  - apply Z.compare_gt_iff. nia.
Qed.

(** Strings that start with padded numbers compare as the numbers, then as
    what follows. *)
Lemma compare_zero_padded w a b r1 r2 :
  0 <= a -> 0 <= b ->
  String.compare (zero_padded w a ++ r1) (zero_padded w b ++ r2)
  = lex (a mod 10 ^ Z.of_nat w ?= b mod 10 ^ Z.of_nat w) (String.compare r1 r2).
Proof.
  intros Ha Hb. induction w as [|w IH].
  - simpl. now rewrite !Z.mod_1_r.
  - cbn [zero_padded append String.compare].
    assert (Hp : 0 < 10 ^ Z.of_nat w) by (apply Z.pow_pos_nonneg; lia).
    pose proof (Z.mod_pos_bound (a / 10 ^ Z.of_nat w) 10) as Da.
    pose proof (Z.mod_pos_bound (b / 10 ^ Z.of_nat w) 10) as Db.
    pose proof (Z.mod_pos_bound a (10 ^ Z.of_nat w) Hp) as Ra.
    pose proof (Z.mod_pos_bound b (10 ^ Z.of_nat w) Hp) as Rb.
    rewrite digit_char_compare by lia. rewrite IH.
    set (p := 10 ^ Z.of_nat w) in *.
    set (da := (a / p) mod 10) in *. set (db := (b / p) mod 10) in *.
    assert (E : (a mod 10 ^ Z.of_nat (S w) ?= b mod 10 ^ Z.of_nat (S w))
                = lex (da ?= db) (a mod p ?= b mod p)).
    { rewrite Nat2Z.inj_succ, Z.pow_succ_r by lia. fold p.
      rewrite (Z.mul_comm 10 p), !Z.rem_mul_r by lia. fold da db.
      replace (a mod p + p * da) with (da * p + a mod p) by ring.
      replace (b mod p + p * db) with (db * p + b mod p) by ring.
      apply compare_lex_digits; lia. }
    rewrite E. destruct (da ?= db); reflexivity.
Qed.

Lemma compare_zero_padded_exact w a b r1 r2 :
  0 <= a < 10 ^ Z.of_nat w -> 0 <= b < 10 ^ Z.of_nat w ->
  String.compare (zero_padded w a ++ r1) (zero_padded w b ++ r2)
  = lex (a ?= b) (String.compare r1 r2).
Proof.
  intros Ha Hb. rewrite compare_zero_padded by lia.
  now rewrite !Z.mod_small by lia.
Qed.

Lemma compare_same_head c r1 r2 :
  String.compare (String c r1) (String c r2) = String.compare r1 r2.
Proof. simpl. now rewrite ascii_compare_refl. Qed.

(** The tails: [Z], or a fraction and [Z]. *)
Lemma compare_fraction u v :
  0 <= microsecond u < 1000000 -> 0 <= microsecond v < 1000000 ->
  String.compare
    ((if microsecond u =? 0 then "" else "." ++ zero_padded 6 (microsecond u))
       ++ "Z")
    ((if microsecond v =? 0 then "" else "." ++ zero_padded 6 (microsecond v))
       ++ "Z")
  = fraction_compare (microsecond u) (microsecond v).
Proof.
  intros Hu Hv. unfold fraction_compare.
  destruct (microsecond u =? 0), (microsecond v =? 0); try reflexivity.
  cbn [append]. rewrite compare_same_head.
  rewrite compare_zero_padded_exact by (simpl; lia).
  now destruct (_ ?= _).
Qed.

(** Two stored timestamps compare as their fields, from the year down to
    the second, and then as their tails. *)
Lemma compare_stored u v :
  check_fields u = true -> tzinfo u = Some 0 ->
  check_fields v = true -> tzinfo v = Some 0 ->
  String.compare (stored_timestamp u) (stored_timestamp v)
  = fields_compare u v (fraction_compare (microsecond u) (microsecond v)).
Proof.
  intros Hcu Htu Hcv Htv.
  rewrite (stored_timestamp_utc u Htu), (stored_timestamp_utc v Htv).
  apply check_fields_elim in Hcu, Hcv.
  destruct Hcu as (Hy & Hm & Hd & Hh & Hmi & Hs & Hus).
  destruct Hcv as (Hy' & Hm' & Hd' & Hh' & Hmi' & Hs' & Hus').
  pose proof (days_in_month_le (year u) (month u)).
  pose proof (days_in_month_le (year v) (month v)).
  unfold date_part, clock_part, fields_compare.
  rewrite !append_assoc.
  rewrite compare_zero_padded_exact by (simpl; lia). f_equal.
  cbn [append]. rewrite compare_same_head.
  rewrite compare_zero_padded_exact by (simpl; lia). f_equal.
  cbn [append]. rewrite compare_same_head.
  rewrite compare_zero_padded_exact by (simpl; lia). f_equal.
  cbn [append]. rewrite compare_same_head.
  rewrite compare_zero_padded_exact by (simpl; lia). f_equal.
  cbn [append]. rewrite compare_same_head.
  rewrite compare_zero_padded_exact by (simpl; lia). f_equal.
  cbn [append]. rewrite compare_same_head.
  rewrite compare_zero_padded_exact by (simpl; lia). f_equal.
  now apply compare_fraction.
Qed.

(** The clocks of two values compare as their fields. *)
Lemma compare_local_us u v :
  check_fields u = true -> check_fields v = true ->
  (local_us u ?= local_us v)
  = fields_compare u v (microsecond u ?= microsecond v).
Proof.
  intros Hcu Hcv.
  pose proof (ymd2ord_compare _ _ _ _ _ _ (check_fields_date u Hcu)
                              (check_fields_date v Hcv)) as Ho.
  apply check_fields_elim in Hcu, Hcv.
  destruct Hcu as (_ & _ & _ & Hh & Hmi & Hs & Hus).
  destruct Hcv as (_ & _ & _ & Hh' & Hmi' & Hs' & Hus').
  unfold fields_compare, local_us.
  set (n := ymd2ord (year u) (month u) (day u)) in *.
  set (n' := ymd2ord (year v) (month v) (day v)) in *.
  transitivity
    (lex (n ?= n')
       (lex (hour u ?= hour v)
          (lex (minute u ?= minute v)
             (lex (second u ?= second v) (microsecond u ?= microsecond v))))).
  - destruct (Z.compare_spec n n') as [->|?|?]; simpl;
      [|apply Z.compare_lt_iff; lia|apply Z.compare_gt_iff; lia].
    destruct (Z.compare_spec (hour u) (hour v)) as [->|?|?]; simpl;
      [|apply Z.compare_lt_iff; lia|apply Z.compare_gt_iff; lia].
    destruct (Z.compare_spec (minute u) (minute v)) as [->|?|?]; simpl;
      [|apply Z.compare_lt_iff; lia|apply Z.compare_gt_iff; lia].
    destruct (Z.compare_spec (second u) (second v)) as [->|?|?]; simpl;
      [|apply Z.compare_lt_iff; lia|apply Z.compare_gt_iff; lia].
    destruct (Z.compare_spec (microsecond u) (microsecond v));
      [apply Z.compare_eq_iff|apply Z.compare_lt_iff|apply Z.compare_gt_iff];
      lia.
  - rewrite Ho.
    destruct (year u ?= year v), (month u ?= month v), (day u ?= day v);
      reflexivity.
Qed.

Lemma fraction_compare_same_shape us us' :
  (us = 0 <-> us' = 0) -> fraction_compare us us' = (us ?= us').
Proof.
  unfold fraction_compare. intros H.
  destruct (Z.eqb_spec us 0) as [E|E], (Z.eqb_spec us' 0) as [E'|E'];
    try reflexivity.
  - now rewrite E, E'.
  - apply H in E. contradiction.
  - apply H in E'. contradiction.
Qed.

(** X11.  For two timestamps the receiver wrote that both are whole seconds,
    or both carry a fraction, the order of the strings is the order of the
    instants: on such a log "recent" is chronological. *)
Theorem stored_order_is_chronological loc (u v : datetime) :
  check_fields u = true -> tzinfo u = Some 0 ->
  check_fields v = true -> tzinfo v = Some 0 ->
  (microsecond u = 0 <-> microsecond v = 0) ->
  String.compare (stored_timestamp u) (stored_timestamp v)
  = (instant_us loc u ?= instant_us loc v).
Proof.
  intros Hcu Htu Hcv Htv Hshape.
  rewrite (compare_stored u v Hcu Htu Hcv Htv).
  rewrite (fraction_compare_same_shape _ _ Hshape).
  rewrite <- (compare_local_us u v Hcu Hcv).
  unfold instant_us. rewrite Htu, Htv. now rewrite !Z.sub_0_r.
Qed.

Lemma fields_compare_same u v c :
  fields_compare u v Eq = Eq -> fields_compare u v c = c.
Proof.
  unfold fields_compare.
  destruct (year u ?= year v), (month u ?= month v), (day u ?= day v),
    (hour u ?= hour v), (minute u ?= minute v), (second u ?= second v);
    simpl; congruence.
Qed.

(** X12.  A whole-second timestamp sorts above every timestamp of the same
    second that carries a fraction, although its instant is earlier; so with
    limit 1 the recent query returns the earlier of two such records. *)
Theorem whole_second_sorts_last loc (u v : datetime) :
  check_fields u = true -> tzinfo u = Some 0 ->
  check_fields v = true -> tzinfo v = Some 0 ->
  fields_compare u v Eq = Eq ->
  microsecond u = 0 -> microsecond v <> 0 ->
  String.ltb (stored_timestamp v) (stored_timestamp u) = true
  /\ instant_us loc u < instant_us loc v
  /\ forall ru rv,
       rec_timestamp ru = stored_timestamp u ->
       rec_timestamp rv = stored_timestamp v ->
       get_recent (Some 1) (Some [Entry ru; Entry rv]) = [ru]
       /\ get_recent (Some 1) (Some [Entry rv; Entry ru]) = [ru].
Proof.
  intros Hcu Htu Hcv Htv Hsame Hu Hv.
  assert (Hgt : String.compare (stored_timestamp u) (stored_timestamp v) = Gt).
  { rewrite (compare_stored u v Hcu Htu Hcv Htv).
    rewrite (fields_compare_same u v _ Hsame).
    unfold fraction_compare. rewrite Hu. simpl (0 =? 0).
    now destruct (Z.eqb_spec (microsecond v) 0). }
  assert (Hltb : String.ltb (stored_timestamp v) (stored_timestamp u) = true).
  { unfold String.ltb. rewrite String.compare_antisym, Hgt. reflexivity. }
  split; [exact Hltb|]. split.
  - unfold instant_us. rewrite Htu, Htv, !Z.sub_0_r.
    unfold Z.lt.
    rewrite (compare_local_us u v Hcu Hcv).
    rewrite (fields_compare_same u v _ Hsame).
    rewrite Hu. apply Z.compare_lt_iff.
    apply check_fields_elim in Hcv. lia.
  - intros ru rv Eu Ev. unfold get_recent, slice_to, sorted. simpl.
    rewrite Eu, Ev, Hltb, (string_ltb_asym _ _ Hltb). split; reflexivity.
Qed.

(** * The generator *)

Lemma choice_some {A : Type} (seq : list A) r :
  seq <> [] -> exists x, choice seq r = Some x /\ In x seq.
Proof.
  intros Hne. unfold choice. destruct seq as [|a seq]; [contradiction|].
  set (l := a :: seq).
  assert (Hlt : (r mod List.length l < List.length l)%nat)
    by (apply Nat.mod_upper_bound; unfold l; simpl; discriminate).
  destruct (nth_error l (r mod List.length l)) as [x|] eqn:E.
  - exists x. split; [reflexivity|]. eapply nth_error_In; eassumption.
  - apply nth_error_None in E. lia.
Qed.

Lemma choice_type r :
  choice ["credit"; "debit"] r = Some "credit"
  \/ choice ["credit"; "debit"] r = Some "debit".
Proof.
  unfold choice. cbn [List.length].
  assert (H : (r mod 2 = 0 \/ r mod 2 = 1)%nat).
  { pose proof (Nat.mod_upper_bound r 2). lia. }
  destruct H as [-> | ->]; simpl; auto.
Qed.

Section GeneratorToReceiver.
Variable local_utcoffset : datetime -> Z.
Variable lax_float : json -> option float.
Variable datetime_of_json : json -> option datetime.

(** X13.  Every transaction the generator makes from a non-empty list of
    accounts is accepted by a receiver whose library reads the generator's
    timestamp back, and is stored as made: the generated id, the account
    that was drawn from the list, the rounded amount, the timestamp string
    itself, and the type that was drawn.  The receiver is handed the
    dictionary as made; its encoding on the wire is not part of the
    model. *)
Theorem generated_is_accepted (dr : draw) (accounts : list string) (f : file) :
  accounts <> [] ->
  check_fields (now_utc dr) = true ->
  tzinfo (now_utc dr) = Some 0 ->
  datetime_of_json (JString (replace "+00:00" "Z" (isoformat (now_utc dr))))
  = Some (now_utc dr) ->
  exists a s ty tx,
    choice accounts (account_draw dr) = Some a
    /\ In a accounts
    /\ choice ["credit"; "debit"] (type_draw dr) = Some s
    /\ (s = "credit" /\ ty = credit \/ s = "debit" /\ ty = debit)
    /\ make_tx dr accounts = Some tx
    /\ tx = JObject
              [("id", JString ("tx-" ++ uuid_hex dr));
               ("account", JString a);
               ("amount",
                JFloat (float_round2 (uniform 10 2000 (uniform_draw dr))));
               ("timestamp",
                JString (replace "+00:00" "Z" (isoformat (now_utc dr))));
               ("type", JString s)]
    /\ post_transactions local_utcoffset lax_float datetime_of_json tx f
       = (Accepted ("tx-" ++ uuid_hex dr),
          append_line f
            (mkRecord ("tx-" ++ uuid_hex dr) a
                      (float_round2 (uniform 10 2000 (uniform_draw dr)))
                      (replace "+00:00" "Z" (isoformat (now_utc dr)))
                      ty)).
Proof.
  intros Hne Hc Ht Hread.
  destruct (choice_some accounts (account_draw dr) Hne) as (a & Ha & Hin).
  unfold make_tx. rewrite Ha.
  destruct (choice_type (type_draw dr)) as [Hty|Hty]; rewrite Hty;
    exists a; eexists; eexists; eexists;
    (split; [reflexivity|]); (split; [exact Hin|]); (split; [reflexivity|]);
    (split; [auto|]); (split; [reflexivity|]); (split; [reflexivity|]);
    unfold post_transactions, validate; cbn [lookup String.eqb Ascii.eqb
      Bool.eqb validate_str validate_float validate_datetime validate_type];
    rewrite Hread; unfold recieve_transaction; cbn [Transaction.timestamp
      Transaction.id Transaction.account Transaction.amount Transaction.type];
    rewrite (astimezone_utc_of_utc _ _ Hc Ht); reflexivity.
Qed.
End GeneratorToReceiver.

(** The library of the example host reads the generator's timestamps. *)
Lemma host_reads_generated (now : datetime) :
  check_fields now = true -> tzinfo now = Some 0 ->
  Host.datetime_of_json (JString (replace "+00:00" "Z" (isoformat now)))
  = Some now.
Proof.
  intros Hc Ht. unfold Host.datetime_of_json.
  change (replace "+00:00" "Z" (isoformat now)) with (stored_timestamp now).
  now rewrite (replace_Z_stored now Ht), (fromisoformat_isoformat now Hc Ht).
Qed.

Section GeneratorFacts.
Variable draws : Z -> draw.
Variable sleep_returns : float -> bool.
Variable count : Z.
Variable rate : float.
Variable accounts : list string.

Local Abbreviation loop transport :=
  (main_loop draws transport sleep_returns count rate accounts).

Lemma make_tx_some dr :
  accounts <> [] -> exists tx, make_tx dr accounts = Some tx.
Proof.
  intros Hne. unfold make_tx.
  destruct (choice_some accounts (account_draw dr) Hne) as (a & -> & _).
  destruct (choice_type (type_draw dr)) as [-> | ->]; eauto.
Qed.

Lemma no_delay_without_rate :
  PrimFloat.ltb 0 rate = false -> truthy (delay_of rate) = false.
Proof. unfold delay_of. intros ->. reflexivity. Qed.

(** The loop when every sleep it needs returns. *)
Lemma main_loop_facts transport n i :
  accounts <> [] ->
  (truthy (delay_of rate) = true -> i < count ->
   sleep_returns (delay_of rate) = true) ->
  let t := fst (loop transport n i) in
  snd (loop transport n i) = true
  /\ map fst (posts t) = map (fun k => i + Z.of_nat k) (seq 0 n)
  /\ map fst (prints t) = map fst (posts t)
  /\ List.length (sleeps t)
     = (if truthy (delay_of rate)
        then Z.to_nat (Z.min (Z.of_nat n) (count - i)) else 0%nat).
Proof.
  intros Hne. revert i. induction n as [|n IH]; intros i Hs.
  - simpl. repeat split. destruct (truthy (delay_of rate)); lia.
  - cbn [main_loop].
    destruct (make_tx_some (draws i) Hne) as (tx & ->).
    assert (Hs' : truthy (delay_of rate) = true -> i + 1 < count ->
                  sleep_returns (delay_of rate) = true)
      by (intros Hd Hi; apply Hs; [exact Hd | lia]).
    specialize (IH (i + 1) Hs').
    destruct (loop transport n (i + 1)) as [rest fin].
    cbn [fst snd] in *. destruct IH as (Hf & Hp & Hpr & Hl).
    assert (Hidx : map (fun k => i + Z.of_nat k) (seq 0 (S n))
                   = i :: map (fun k => i + 1 + Z.of_nat k) (seq 0 n)).
    { cbn [seq map]. rewrite <- seq_shift, map_map.
      replace (i + Z.of_nat 0) with i by lia. f_equal.
      apply map_ext. intros k. lia. }
    rewrite Hidx.
    destruct (truthy (delay_of rate)) eqn:Hd; cbn [andb].
    + destruct (Z.ltb_spec i count) as [Hi|Hi].
      * rewrite (Hs eq_refl Hi). cbn [fst snd app].
        split; [exact Hf|].
        unfold posts, prints, sleeps in *. cbn [flat_map app map fst].
        split; [now rewrite Hp|]. split; [now rewrite Hpr|].
        cbn [List.length]. rewrite Hl. lia.
      * cbn [fst snd app]. split; [exact Hf|].
        unfold posts, prints, sleeps in *. cbn [flat_map app map fst].
        split; [now rewrite Hp|]. split; [now rewrite Hpr|].
        rewrite Hl. lia.
    + cbn [fst snd app]. split; [exact Hf|].
      unfold posts, prints, sleeps in *. cbn [flat_map app map fst].
      split; [now rewrite Hp|]. split; [now rewrite Hpr|]. exact Hl.
Qed.

Lemma main_loop_sleeps transport n i :
  Forall (fun d => d = delay_of rate) (sleeps (fst (loop transport n i))).
Proof.
  revert i. induction n as [|n IH]; intros i; [constructor|].
  cbn [main_loop]. destruct (make_tx (draws i) accounts) as [tx|];
    [|constructor].
  specialize (IH (i + 1)).
  destruct (loop transport n (i + 1)) as [rest fin].
  cbn [fst] in *. unfold sleeps in *.
  destruct (_ && _); [destruct (sleep_returns _)|];
    cbn [fst flat_map app]; try constructor; auto.
Qed.

Lemma main_loop_posts transport transport' n i :
  posts (fst (loop transport' n i)) = posts (fst (loop transport n i)).
Proof.
  revert i. induction n as [|n IH]; intros i; [reflexivity|].
  cbn [main_loop]. destruct (make_tx (draws i) accounts) as [tx|];
    [|reflexivity].
  specialize (IH (i + 1)).
  destruct (loop transport' n (i + 1)), (loop transport n (i + 1)).
  cbn [fst] in *. unfold posts in *.
  destruct (_ && _); [destruct (sleep_returns _)|];
    cbn [fst flat_map app]; now rewrite ?IH.
Qed.

(** X14.  With a non-empty list of accounts the generator posts whatever
    the submissions come to, and the transactions it posts do not depend on
    their outcomes.  When every sleep returns, it runs to its end: it posts
    [count] times, numbered from 1, prints one outcome per post, and sleeps
    between two posts, [count - 1] times, exactly when the delay is not
    zero; each sleep lasts 1 / rate, and a rate that is not positive gives
    no sleep.  When [time.sleep] raises on the delay, which is outside the
    [try], and more than one post was asked for, the program ends after the
    first post and its print. *)
Theorem generator_posts_count_times (transport transport' : Z -> json -> reply) :
  accounts <> [] ->
  let run := main draws transport sleep_returns count rate accounts in
  let t := fst run in
  ((truthy (delay_of rate) = true -> 1 < count ->
    sleep_returns (delay_of rate) = true) ->
   snd run = true
   /\ map fst (posts t) = map (fun k => 1 + Z.of_nat k) (seq 0 (Z.to_nat count))
   /\ map fst (prints t) = map fst (posts t)
   /\ Z.of_nat (List.length (sleeps t))
      = (if truthy (delay_of rate) then Z.max 0 (count - 1) else 0))
  /\ (truthy (delay_of rate) = true -> 1 < count ->
      sleep_returns (delay_of rate) = false ->
      snd run = false
      /\ map fst (posts t) = [1] /\ map fst (prints t) = [1]
      /\ sleeps t = [])
  /\ Forall (fun d => d = delay_of rate) (sleeps t)
  /\ (PrimFloat.ltb 0 rate = false -> snd run = true /\ sleeps t = [])
  /\ posts (fst (main draws transport' sleep_returns count rate accounts))
     = posts t.
Proof.
  intros Hne. cbv zeta. unfold main.
  assert (Hok : (truthy (delay_of rate) = true -> 1 < count ->
                 sleep_returns (delay_of rate) = true) ->
                snd (loop transport (Z.to_nat count) 1) = true
                /\ map fst (posts (fst (loop transport (Z.to_nat count) 1)))
                   = map (fun k => 1 + Z.of_nat k) (seq 0 (Z.to_nat count))
                /\ map fst (prints (fst (loop transport (Z.to_nat count) 1)))
                   = map fst (posts (fst (loop transport (Z.to_nat count) 1)))
                /\ Z.of_nat (List.length
                               (sleeps (fst (loop transport (Z.to_nat count) 1))))
                   = (if truthy (delay_of rate)
                      then Z.max 0 (count - 1) else 0)).
  { intros Hs.
    destruct (main_loop_facts transport (Z.to_nat count) 1 Hne)
      as (Hf & Hp & Hpr & Hl); [exact Hs|].
    repeat split; try assumption.
    rewrite Hl. destruct (truthy (delay_of rate)); lia. }
  split; [exact Hok|]. split; [|split; [|split]].
  - intros Hd Hc Hs.
    destruct (Z.to_nat count) as [|n] eqn:E; [lia|].
    cbn [main_loop].
    destruct (make_tx_some (draws 1) Hne) as (tx & ->).
    rewrite Hd. destruct (Z.ltb_spec 1 count) as [_|]; [|lia].
    cbn [andb]. rewrite Hs. repeat split.
  - apply main_loop_sleeps.
  - intros Hr. pose proof (no_delay_without_rate Hr) as Hd.
    destruct Hok as (Hf & _ & _ & Hl); [rewrite Hd; discriminate|].
    split; [exact Hf|]. apply length_zero_iff_nil.
    rewrite Hd in Hl. lia.
  - apply main_loop_posts.
Qed.

(** X15.  With an empty list of accounts and a positive count the generator
    stops at its first transaction, [random.choice] raising on the empty
    list: nothing is posted, printed or slept. *)
Theorem generator_needs_accounts (transport : Z -> json -> reply) :
  0 < count ->
  main draws transport sleep_returns count rate [] = ([], false).
Proof.
  intros Hc. unfold main.
  destruct (Z.to_nat count) as [|n] eqn:E; [lia|]. reflexivity.
Qed.
End GeneratorFacts.

(** * Writing, then reading *)

Lemma decimal_four_digits y :
  1000 <= y <= 9999 -> decimal y = zero_padded 4 y.
Proof.
  intros Hy.
  assert (H : all_from (fun y => String.eqb (decimal y) (zero_padded 4 y))
                       1000 (Z.to_nat 9000) = true)
    by (vm_compute; reflexivity).
  pose proof (all_from_spec _ _ _ H y) as E.
  apply String.eqb_eq, E. lia.
Qed.

(** X16.  What the handler writes, the timeline query reads back: the
    stored rendering of a UTC value, its [Z] spelled as an offset again, is
    parsed to that very value, and its bucket is the value's own date and
    hour, as [strftime] prints them: the year as a plain number, which has
    the four digits of the stored string from the year 1000 on. *)
Theorem stored_timestamp_reads_back (u : datetime) :
  check_fields u = true -> tzinfo u = Some 0 ->
  fromisoformat (replace "Z" "+00:00" (stored_timestamp u)) = Some u
  /\ hour_key (stored_timestamp u)
     = Some (decimal (year u) ++ "-" ++ zero_padded 2 (month u) ++ "-"
               ++ zero_padded 2 (day u) ++ " " ++ zero_padded 2 (hour u)
               ++ ":00")
  /\ (1000 <= year u -> decimal (year u) = zero_padded 4 (year u)).
Proof.
  intros Hc Ht. split; [|split].
  - now rewrite (replace_Z_stored u Ht), (fromisoformat_isoformat u Hc Ht).
  - apply (hour_key_stored u Hc Ht).
  - intros Hy. apply decimal_four_digits.
    apply check_fields_elim in Hc. lia.
Qed.

Section PostFacts.
Variable local_utcoffset : datetime -> Z.
Variable lax_float : json -> option float.
Variable datetime_of_json : json -> option datetime.

Local Abbreviation post :=
  (post_transactions local_utcoffset lax_float datetime_of_json).

(** X17.  The answer to a request does not depend on the log: the receiver
    checks no identifier against the stored ones, so the same body posted
    twice is accepted twice and stored twice. *)
Theorem answer_ignores_log (body : json) (f g : file) :
  fst (post body f) = fst (post body g)
  /\ forall i f',
       post body f = (Accepted i, f') ->
       exists r f'',
         post body f' = (Accepted i, f'')
         /\ read_transactions f''
            = (read_transactions f ++ [r; r])%list.
Proof.
  unfold post_transactions.
  destruct (validate lax_float datetime_of_json body) as [tx|];
    [|split; [reflexivity|discriminate]].
  unfold recieve_transaction.
  destruct (astimezone_utc local_utcoffset (Transaction.timestamp tx))
    as [utc|]; [|split; [reflexivity|discriminate]].
  split; [reflexivity|].
  intros i f' E. injection E as <- <-.
  eexists. eexists. split; [reflexivity|].
  rewrite !read_append_line, <- app_assoc. reflexivity.
Qed.

Lemma of_account_snoc a txs r :
  of_account a (txs ++ [r])
  = (of_account a txs
       ++ (if String.eqb (rec_account r) a then [r] else []))%list.
Proof. unfold of_account. now rewrite filter_app. Qed.

Lemma row_in_by_account f a :
  In a (map rec_account (read_transactions f)) ->
  exists row, In row (get_by_account f) /\ row_account row = a.
Proof.
  intros H. apply by_account_In in H. apply in_map_iff in H.
  destruct H as (row & E & Hrow). eauto.
Qed.

Lemma of_account_In a txs :
  of_account a txs <> [] -> In a (map rec_account txs).
Proof.
  unfold of_account. intros H.
  destruct (filter _ txs) as [|x l] eqn:E; [contradiction|].
  assert (Hx : In x (filter (fun tx => String.eqb (rec_account tx) a) txs))
    by (rewrite E; now left).
  apply filter_In in Hx. destruct Hx as (Hx & Ea).
  apply String.eqb_eq in Ea. subst a. now apply in_map.
Qed.

(** X18.  An accepted request changes one row of the by-account view: the
    row of the account it names, whose count grows by one (a new account
    gets a row of count 1); the row of every other account is as before. *)
Theorem post_changes_one_row (body : json) (f f' : file) (i : string) :
  post body f = (Accepted i, f') ->
  exists r,
    read_transactions f' = (read_transactions f ++ [r])%list
    /\ (forall row', In row' (get_by_account f') ->
          row_account row' <> rec_account r -> In row' (get_by_account f))
    /\ (exists row', In row' (get_by_account f')
                     /\ row_account row' = rec_account r
                     /\ row_count row'
                        = len (of_account (rec_account r) (read_transactions f))
                          + 1).
Proof.
  intros H. apply post_accepted in H. destruct H as (tx & _ & H).
  apply recieve_accepted in H. destruct H as (utc & _ & ->).
  eexists. split; [apply read_append_line|].
  set (r := mkRecord _ _ _ _ _).
  split.
  - intros row' Hin Hne.
    destruct (by_account_row _ row' Hin) as (Hmine & Hc & Hd & Hb & Hn).
    rewrite read_append_line, of_account_snoc in Hmine, Hc, Hd, Hb, Hn.
    destruct (String.eqb_spec (rec_account r) (row_account row')) as [E|_];
      [congruence|].
    rewrite app_nil_r in Hmine, Hc, Hd, Hb, Hn.
    destruct (row_in_by_account f (row_account row')
                (of_account_In _ _ Hmine)) as (row & Hrow & Ea).
    destruct (by_account_row _ row Hrow) as (_ & Hc0 & Hd0 & Hb0 & Hn0).
    rewrite Ea in Hc0, Hd0, Hb0, Hn0.
    assert (E : row = row').
    { destruct row, row'. simpl in *. congruence. }
    now rewrite <- E.
  - destruct (row_in_by_account (append_line f r) (rec_account r))
      as (row' & Hin & Ea).
    { rewrite read_append_line, map_app. apply in_or_app. right. now left. }
    exists row'. split; [exact Hin|]. split; [exact Ea|].
    destruct (by_account_row _ row' Hin) as (_ & _ & _ & _ & Hn).
    rewrite Hn, Ea, read_append_line, of_account_snoc, String.eqb_refl.
    apply len_app_one.
Qed.
End PostFacts.

(** * A timestamp the timeline cannot read *)

Lemma timeline_loop_none txs timeline :
  timeline_loop txs timeline = None
  <-> exists tx, In tx txs /\ hour_key (rec_timestamp tx) = None.
Proof.
  revert timeline. induction txs as [|tx txs IH]; intros timeline.
  - simpl. split; [discriminate|]. now intros (tx & [] & _).
  - cbn [timeline_loop].
    destruct (hour_key (rec_timestamp tx)) as [k|] eqn:E.
    + rewrite IH. split.
      * intros (tx' & Hin & Hk). exists tx'. split; [now right|exact Hk].
      * intros (tx' & [<-|Hin] & Hk); [congruence|]. eauto.
    + split; [|reflexivity]. intros _. exists tx. split; [now left|exact E].
Qed.

(** X19.  The timeline query raises exactly when the log holds a record
    whose timestamp [fromisoformat] rejects; one such record, wherever it
    is in the log, fails the whole query.  No record the receiver appended
    is one: what it writes, the query reads. *)
Theorem timeline_raises_on_unread_timestamp (f : file) :
  (get_timeline f = None
   <-> exists tx, In tx (read_transactions f)
                  /\ hour_key (rec_timestamp tx) = None)
  /\ (Forall (fun tx => written_timestamp (rec_timestamp tx))
             (read_transactions f) ->
      get_timeline f <> None).
Proof.
  assert (H : get_timeline f = None
              <-> exists tx, In tx (read_transactions f)
                             /\ hour_key (rec_timestamp tx) = None);
    [|split; [exact H|]].
  - unfold get_timeline.
    destruct (read_transactions f) as [|tx txs] eqn:E.
    + split; [discriminate|]. now intros (tx & [] & _).
    + rewrite <- (timeline_loop_none (tx :: txs) []).
      destruct (timeline_loop (tx :: txs) []); split; congruence.
  - intros Hw Hn. apply H in Hn. destruct Hn as (tx & Hin & Hk).
    rewrite Forall_forall in Hw.
    destruct (Hw tx Hin) as (utc & Hc & Ht & E). rewrite E in Hk.
    change (replace "+00:00" "Z" (isoformat utc)) with (stored_timestamp utc)
      in Hk.
    rewrite (hour_key_stored utc Hc Ht) in Hk. discriminate.
Qed.

Lemma timeline_raises_on_unread_timestamp_witness :
  get_timeline
    (Some [Entry (mkRecord "t1" "A123" 100 "2024-05-01T10:15:00Z" credit);
           Entry (mkRecord "t2" "B456" 40 "yesterday" debit)])
  = None.
Proof.
  apply (timeline_raises_on_unread_timestamp
           (Some [Entry (mkRecord "t1" "A123" 100 "2024-05-01T10:15:00Z"
                                  credit);
                  Entry (mkRecord "t2" "B456" 40 "yesterday" debit)])).
  exists (mkRecord "t2" "B456" 40 "yesterday" debit).
  split; [simpl; auto | reflexivity].
Defined.

(** * The properties at concrete inputs *)

Lemma timeline_counts_total_witness :
  exists out,
    get_timeline
      (Some [Entry (mkRecord "t1" "A123" 100 "2024-05-01T10:15:00Z" credit);
             Entry (mkRecord "t2" "B456" 40 "2024-05-01T09:59:59.250000Z" debit);
             Entry (mkRecord "t3" "A123" 7.5 "2024-05-01T10:45:00Z" credit)])
    = Some out
    /\ total (map tl_count out) = 3.
Proof.
  apply (timeline_counts_total
           (Some [Entry (mkRecord "t1" "A123" 100 "2024-05-01T10:15:00Z" credit);
                  Entry (mkRecord "t2" "B456" 40 "2024-05-01T09:59:59.250000Z" debit);
                  Entry (mkRecord "t3" "A123" 7.5 "2024-05-01T10:45:00Z" credit)])).
  simpl. repeat constructor; simpl.
  - exists (mkDatetime 2024 5 1 10 15 0 0 (Some 0)). repeat split.
  - exists (mkDatetime 2024 5 1 9 59 59 250000 (Some 0)). repeat split.
  - exists (mkDatetime 2024 5 1 10 45 0 0 (Some 0)). repeat split.
Defined.

Lemma recent_is_stable_witness :
  at_time "2024-05-01T10:15:00Z"
    (get_recent (Some 3)
       (Some [Entry (mkRecord "t1" "A123" 100 "2024-05-01T10:15:00Z" credit);
              Entry (mkRecord "t2" "B456" 40 "2024-05-01T10:45:00Z" debit);
              Entry (mkRecord "t3" "C789" 7.5 "2024-05-01T10:15:00Z" credit)]))
  = [mkRecord "t1" "A123" 100 "2024-05-01T10:15:00Z" credit;
     mkRecord "t3" "C789" 7.5 "2024-05-01T10:15:00Z" credit].
Proof.
  apply (recent_is_stable
           (Some [Entry (mkRecord "t1" "A123" 100 "2024-05-01T10:15:00Z" credit);
                  Entry (mkRecord "t2" "B456" 40 "2024-05-01T10:45:00Z" debit);
                  Entry (mkRecord "t3" "C789" 7.5 "2024-05-01T10:15:00Z" credit)])
           3 "2024-05-01T10:15:00Z").
  vm_compute. congruence.
Defined.

Lemma credit_only_balance_witness :
  In (mkRow "A123" (Float 107.5) (Int 0) (Float 107.5) 2)
     (get_by_account
        (Some [Entry (mkRecord "t1" "A123" 100 "2024-05-01T10:15:00Z" credit);
               Entry (mkRecord "t2" "B456" 40 "2024-05-01T10:45:00Z" debit);
               Entry (mkRecord "t3" "A123" 7.5 "2024-05-01T10:50:00Z" credit)]))
  /\ row_balance (mkRow "A123" (Float 107.5) (Int 0) (Float 107.5) 2)
     = row_credits (mkRow "A123" (Float 107.5) (Int 0) (Float 107.5) 2)
  /\ row_debits (mkRow "A123" (Float 107.5) (Int 0) (Float 107.5) 2) = Int 0.
Proof.
  assert (Hin :
    In (mkRow "A123" (Float 107.5) (Int 0) (Float 107.5) 2)
       (get_by_account
          (Some [Entry (mkRecord "t1" "A123" 100 "2024-05-01T10:15:00Z" credit);
                 Entry (mkRecord "t2" "B456" 40 "2024-05-01T10:45:00Z" debit);
                 Entry (mkRecord "t3" "A123" 7.5 "2024-05-01T10:50:00Z" credit)])))
    by (vm_compute; auto).
  split; [exact Hin|].
  apply (credit_only_balance _ _ Hin). reflexivity.
Defined.

Lemma utc_timestamp_stored_unchanged_witness :
  recieve_transaction Host.local_utcoffset
    (Transaction.mk "t1" "A123" 12.5
                    (mkDatetime 2024 5 1 10 15 0 0 (Some 0)) credit)
    None
  = (Accepted "t1",
     Some [Entry (mkRecord "t1" "A123" 12.5 "2024-05-01T10:15:00Z" credit)]).
Proof.
  apply (utc_timestamp_stored_unchanged Host.local_utcoffset
           (Transaction.mk "t1" "A123" 12.5
                           (mkDatetime 2024 5 1 10 15 0 0 (Some 0)) credit)
           None); reflexivity.
Defined.

Lemma stored_order_is_chronological_witness :
  String.compare
    (stored_timestamp (mkDatetime 2024 5 1 10 15 0 250000 (Some 0)))
    (stored_timestamp (mkDatetime 2024 5 1 10 15 0 1000 (Some 0)))
  = (instant_us Host.local_utcoffset
       (mkDatetime 2024 5 1 10 15 0 250000 (Some 0))
     ?= instant_us Host.local_utcoffset
          (mkDatetime 2024 5 1 10 15 0 1000 (Some 0))).
Proof.
  apply (stored_order_is_chronological Host.local_utcoffset
           (mkDatetime 2024 5 1 10 15 0 250000 (Some 0))
           (mkDatetime 2024 5 1 10 15 0 1000 (Some 0)));
    try reflexivity.
  simpl. split; discriminate.
Defined.

Lemma whole_second_sorts_last_witness :
  String.ltb
    (stored_timestamp (mkDatetime 2024 5 1 10 15 0 250000 (Some 0)))
    (stored_timestamp (mkDatetime 2024 5 1 10 15 0 0 (Some 0))) = true
  /\ instant_us Host.local_utcoffset (mkDatetime 2024 5 1 10 15 0 0 (Some 0))
     < instant_us Host.local_utcoffset
         (mkDatetime 2024 5 1 10 15 0 250000 (Some 0))
  /\ get_recent (Some 1)
       (Some [Entry (mkRecord "t1" "A123" 100 "2024-05-01T10:15:00Z" credit);
              Entry (mkRecord "t2" "B456" 40 "2024-05-01T10:15:00.250000Z"
                              debit)])
     = [mkRecord "t1" "A123" 100 "2024-05-01T10:15:00Z" credit].
Proof.
  destruct (whole_second_sorts_last Host.local_utcoffset
              (mkDatetime 2024 5 1 10 15 0 0 (Some 0))
              (mkDatetime 2024 5 1 10 15 0 250000 (Some 0)))
    as (Hs & Hi & Hr); try reflexivity; [discriminate|].
  split; [exact Hs|]. split; [exact Hi|].
  apply (Hr (mkRecord "t1" "A123" 100 "2024-05-01T10:15:00Z" credit)
            (mkRecord "t2" "B456" 40 "2024-05-01T10:15:00.250000Z" debit));
    reflexivity.
Defined.

Lemma generated_is_accepted_witness :
  exists a s ty tx,
    choice ["A123"; "B456"; "C789"] 4 = Some a
    /\ In a ["A123"; "B456"; "C789"]
    /\ choice ["credit"; "debit"] 1 = Some s
    /\ (s = "credit" /\ ty = credit \/ s = "debit" /\ ty = debit)
    /\ make_tx (mkDraw "9f1c2ab4d5e64f708192a3b4c5d6e7f8" 4 0.5
                       (mkDatetime 2024 5 1 10 15 0 123456 (Some 0)) 1)
               ["A123"; "B456"; "C789"]
       = Some tx
    /\ tx = JObject
              [("id", JString "tx-9f1c2ab4d5e64f708192a3b4c5d6e7f8");
               ("account", JString a);
               ("amount", JFloat (float_round2 (uniform 10 2000 0.5)));
               ("timestamp", JString "2024-05-01T10:15:00.123456Z");
               ("type", JString s)]
    /\ Host.post tx None
       = (Accepted "tx-9f1c2ab4d5e64f708192a3b4c5d6e7f8",
          Some [Entry (mkRecord "tx-9f1c2ab4d5e64f708192a3b4c5d6e7f8" a
                                (float_round2 (uniform 10 2000 0.5))
                                "2024-05-01T10:15:00.123456Z" ty)]).
Proof.
  apply (generated_is_accepted
           Host.local_utcoffset Host.lax_float Host.datetime_of_json
           (mkDraw "9f1c2ab4d5e64f708192a3b4c5d6e7f8" 4 0.5
                   (mkDatetime 2024 5 1 10 15 0 123456 (Some 0)) 1)
           ["A123"; "B456"; "C789"] None).
  - discriminate.
  - reflexivity.
  - reflexivity.
  - apply host_reads_generated; reflexivity.
Defined.

Lemma generator_posts_count_times_witness :
  let draws := fun i : Z =>
    mkDraw "9f1c2ab4d5e64f708192a3b4c5d6e7f8" (Z.to_nat i) 0.5
           (mkDatetime 2024 5 1 10 15 0 123456 (Some 0)) (Z.to_nat i) in
  let run := fun count rate =>
    main draws (fun _ _ => Replied 201 "accepted") host_sleep_returns
         count rate ["A123"; "B456"; "C789"] in
  (snd (run 3 2%float) = true
   /\ map fst (posts (fst (run 3 2%float))) = [1; 2; 3]
   /\ sleeps (fst (run 3 2%float)) = [0.5%float; 0.5%float])
  /\ (delay_of 1e-10 = 1e10%float
      /\ snd (run 2 1e-10%float) = false
      /\ map fst (posts (fst (run 2 1e-10%float))) = [1]
      /\ map fst (prints (fst (run 2 1e-10%float))) = [1]
      /\ sleeps (fst (run 2 1e-10%float)) = []).
Proof.
  cbv zeta. split.
  - destruct (generator_posts_count_times
                (fun i : Z =>
                   mkDraw "9f1c2ab4d5e64f708192a3b4c5d6e7f8" (Z.to_nat i) 0.5
                          (mkDatetime 2024 5 1 10 15 0 123456 (Some 0))
                          (Z.to_nat i))
                host_sleep_returns 3 2 ["A123"; "B456"; "C789"]
                (fun _ _ => Replied 201 "accepted")
                (fun _ _ => Raised "timed out"))
      as (Hok & _); [discriminate|].
    destruct Hok as (Hf & Hp & _ & _); [reflexivity|].
    split; [exact Hf|]. split; [exact Hp|]. reflexivity.
  - destruct (generator_posts_count_times
                (fun i : Z =>
                   mkDraw "9f1c2ab4d5e64f708192a3b4c5d6e7f8" (Z.to_nat i) 0.5
                          (mkDatetime 2024 5 1 10 15 0 123456 (Some 0))
                          (Z.to_nat i))
                host_sleep_returns 2 1e-10 ["A123"; "B456"; "C789"]
                (fun _ _ => Replied 201 "accepted")
                (fun _ _ => Raised "timed out"))
      as (_ & Hfail & _); [discriminate|].
    destruct Hfail as (Hf & Hp & Hpr & Hs); [reflexivity|lia|reflexivity|].
    split; [reflexivity|]. repeat split; assumption.
Defined.

Lemma generator_needs_accounts_witness :
  main (fun _ => mkDraw "9f1c2ab4d5e64f708192a3b4c5d6e7f8" 0 0.5
                        (mkDatetime 2024 5 1 10 15 0 123456 (Some 0)) 0)
       (fun _ _ => Replied 201 "accepted") host_sleep_returns 5 1 []
  = ([], false).
Proof.
  apply (generator_needs_accounts
           (fun _ => mkDraw "9f1c2ab4d5e64f708192a3b4c5d6e7f8" 0 0.5
                            (mkDatetime 2024 5 1 10 15 0 123456 (Some 0)) 0)
           host_sleep_returns 5 1 (fun _ _ => Replied 201 "accepted")).
  reflexivity.
Defined.

Lemma stored_timestamp_reads_back_witness :
  fromisoformat "0999-02-28T23:59:59.000001+00:00"
  = Some (mkDatetime 999 2 28 23 59 59 1 (Some 0))
  /\ hour_key "0999-02-28T23:59:59.000001Z" = Some "999-02-28 23:00"
  /\ hour_key "2024-02-29T23:59:59Z" = Some "2024-02-29 23:00".
Proof.
  destruct (stored_timestamp_reads_back
              (mkDatetime 999 2 28 23 59 59 1 (Some 0)))
    as (Hread & Hkey & _); try reflexivity.
  split; [exact Hread|]. split; [exact Hkey|].
  apply (stored_timestamp_reads_back
           (mkDatetime 2024 2 29 23 59 59 0 (Some 0))); reflexivity.
Defined.

Lemma post_changes_one_row_witness :
  let f := Some [Entry (mkRecord "t1" "A123" 100 "2024-05-01T10:15:00Z" credit);
                 Entry (mkRecord "t2" "B456" 40 "2024-05-01T10:45:00Z" debit)] in
  let f' := snd (Host.post (Host.body "t3" "A123" 7.5 "2024-05-01T08:00:00-03:00"
                                      "credit") f) in
  exists r,
    read_transactions f' = (read_transactions f ++ [r])%list
    /\ (forall row', In row' (get_by_account f') ->
          row_account row' <> rec_account r -> In row' (get_by_account f))
    /\ (exists row', In row' (get_by_account f')
                     /\ row_account row' = rec_account r
                     /\ row_count row'
                        = len (of_account (rec_account r) (read_transactions f))
                          + 1).
Proof.
  apply (post_changes_one_row
           Host.local_utcoffset Host.lax_float Host.datetime_of_json
           (Host.body "t3" "A123" 7.5 "2024-05-01T08:00:00-03:00" "credit")
           (Some [Entry (mkRecord "t1" "A123" 100 "2024-05-01T10:15:00Z"
                                  credit);
                  Entry (mkRecord "t2" "B456" 40 "2024-05-01T10:45:00Z"
                                  debit)])
           _ "t3").
  reflexivity.
Defined.
